(** * pysed: the stream-editing engine of [examples/sed.py]

    A shallow embedding of the script compiler ([PySedCore_parse_script],
    [parse_addresses], [parse_substitute]) and of the execution engine
    ([parse_address], [matches_command], [execute_command],
    [PySedCore_process]), followed by the properties of the engine.

    Conventions.
    - A Python [str] is a [string]: a sequence of characters whose code
      points are below 256. The [str] methods the program calls are
      written out in [PyStr], with the character classes of Python on
      these code points.
    - A Python [int] is a [Z]; an index into the command list is a [nat].
    - A raised exception is the [Raise] outcome of the [result] monad.
      [OutOfFuel] is not a Python outcome: it only says that the bound
      given to the command loop of one cycle was too small.
    - The host regular-expression engine (module [re]) is an interface,
      [HostRegex]; [literal_regex] implements it for patterns that are
      plain text. *)

From Stdlib Require Import ZArith String Ascii List Bool Lia.
From stdpp Require Import base option list gmap strings pretty.
Import ListNotations.

#[local] Open Scope string_scope.
#[local] Open Scope Z_scope.

(** ** Outcomes *)

Inductive exn : Set :=
  | ValueError | ZeroDivisionError | KeyError | IndexError | re_error.

Inductive result (A : Type) : Type :=
  | Ok (a : A)
  | Raise (e : exn)
  | OutOfFuel.
Arguments Ok {A} a.
Arguments Raise {A} e.
Arguments OutOfFuel {A}.

#[global] Instance result_ret : MRet result := fun A a => Ok a.
#[global] Instance result_bind : MBind result := fun A B f m =>
  match m with
  | Ok a => f a
  | Raise e => Raise e
  | OutOfFuel => OutOfFuel
  end.

(** [d[k]] on a dictionary whose key may be absent. *)
Definition subscript {A : Type} (o : option A) : result A :=
  match o with
  | Some a => Ok a
  | None => Raise KeyError
  end.

(** ** The [str] methods used by the program *)

Module PyStr.

Definition LF : ascii := "010"%char.
Definition NUL : ascii := "000"%char.

(** [str.isspace] on one character, which is also what [str.strip]
    removes and what [\s] matches: TAB..CR, FS..US, the space, NEL and
    the no-break space. *)
Definition is_space (c : ascii) : bool :=
  let n := nat_of_ascii c in
  ((9 <=? n) && (n <=? 13) || (28 <=? n) && (n <=? 32)
   || (n =? 133) || (n =? 160))%nat.

(** The white space [int] skips around a number: as [is_space] without
    FS..US. *)
Definition is_int_space (c : ascii) : bool :=
  let n := nat_of_ascii c in
  ((9 <=? n) && (n <=? 13) || (n =? 32) || (n =? 133) || (n =? 160))%nat.

(** The decimal digits, which [\d] matches and [int] reads. *)
Definition is_decimal (c : ascii) : bool :=
  let n := nat_of_ascii c in ((48 <=? n) && (n <=? 57))%nat.

(** [str.isdigit] on one character: the decimal digits and the
    superscripts two, three and one. *)
Definition is_digit (c : ascii) : bool :=
  let n := nat_of_ascii c in
  (is_decimal c || (n =? 178) || (n =? 179) || (n =? 185))%nat.

Definition is_lower (c : ascii) : bool :=
  let n := nat_of_ascii c in ((97 <=? n) && (n <=? 122))%nat.

Fixpoint lstrip_by (p : ascii -> bool) (s : string) : string :=
  match s with
  | "" => ""
  | String c s' => if p c then lstrip_by p s' else s
  end.

Fixpoint rstrip_by (p : ascii -> bool) (s : string) : string :=
  match s with
  | "" => ""
  | String c s' =>
      match rstrip_by p s' with
      | "" => if p c then "" else String c ""
      | r => String c r
      end
  end.

(** [s.rstrip()], [s.strip()] and [s.rstrip(c)]. *)
Definition rstrip (s : string) : string := rstrip_by is_space s.
Definition strip (s : string) : string := lstrip_by is_space (rstrip s).
Definition rstrip_char (c : ascii) (s : string) : string :=
  rstrip_by (Ascii.eqb c) s.

(** [c in s] for a one-character [c]. *)
Fixpoint contains (c : ascii) (s : string) : bool :=
  match s with
  | "" => false
  | String d s' => Ascii.eqb c d || contains c s'
  end.

Definition startswith (p s : string) : bool := String.prefix p s.

(** [s.split(c, 1)] when [c] occurs in [s]: the text before the first
    [c] and the text after it. *)
Fixpoint split_once (c : ascii) (s : string) : option (string * string) :=
  match s with
  | "" => None
  | String d s' =>
      if Ascii.eqb c d then Some ("", s')
      else match split_once c s' with
           | Some (a, b) => Some (String d a, b)
           | None => None
           end
  end.

(** [s.split(c)]. *)
Fixpoint split (c : ascii) (s : string) : list string :=
  match s with
  | "" => [""]
  | String d s' =>
      if Ascii.eqb c d then "" :: split c s'
      else match split c s' with
           | a :: l => String d a :: l
           | [] => [String d ""]
           end
  end.

(** [s.isdigit()]: non-empty and made of digits. *)
Fixpoint all_digits (s : string) : bool :=
  match s with
  | "" => true
  | String c s' => is_digit c && all_digits s'
  end.
Definition isdigit (s : string) : bool :=
  match s with
  | "" => false
  | _ => all_digits s
  end.

(** [s[1:-1]]. *)
Fixpoint drop_last (s : string) : string :=
  match s with
  | "" => ""
  | String c "" => ""
  | String c s' => String c (drop_last s')
  end.
Definition slice_1_m1 (s : string) : string :=
  match s with
  | "" => ""
  | String _ s' => drop_last s'
  end.

(** [int(s)]: surrounding white space, an optional sign, then decimal
    digits, with single underscores allowed between digits. *)
Fixpoint int_digits (acc : Z) (after_digit : bool) (s : string) : option Z :=
  match s with
  | "" => if after_digit then Some acc else None
  | String c s' =>
      if is_decimal c
      then int_digits (10 * acc + (Z.of_nat (nat_of_ascii c) - 48)) true s'
      else if Ascii.eqb c "_"%char && after_digit
           then int_digits acc false s'
           else None
  end.
Definition int (s : string) : result Z :=
  let body :=
    match lstrip_by is_int_space (rstrip_by is_int_space s) with
    | String "+"%char r => int_digits 0 false r
    | String "-"%char r => Z.opp <$> int_digits 0 false r
    | t => int_digits 0 false t
    end in
  match body with
  | Some n => Ok n
  | None => Raise ValueError
  end.

(** [stream.readline()] until it returns the empty string: each line
    with its terminator, the last one possibly without. *)
Fixpoint readlines_from (cur : string) (s : string) : list string :=
  match s with
  | "" => match cur with "" => [] | _ => [cur] end
  | String c s' =>
      if Ascii.eqb c LF then (cur ++ String LF "") :: readlines_from "" s'
      else readlines_from (cur ++ String c "") s'
  end.
Definition readlines (s : string) : list string := readlines_from "" s.

End PyStr.

(** ** Data model *)

Inductive SedCommandType : Set :=
  | BRANCH | COMMENT | DELETE | DELETE_FIRST_LINE | EQUAL | GLOBAL_SUB
  | HOLD | HOLD_APPEND | INSERT | LABEL | NEXT | NEXT_READ | PRINT
  | PRINT_FIRST_LINE | QUIT | QUIT_SILENT | READ_FILE | READ_FILE_SILENT
  | SUBSTITUTE | TEST | TEST_BRANCH | EXCHANGE | TRANSLIT | WRITE
  | WRITE_FIRST_LINE | CHANGE | SWAPCASE.

#[global] Instance SedCommandType_eq_dec : EqDecision SedCommandType.
Proof. solve_decision. Defined.

(** [SedCommandType(c)]: the member whose value is [c]. *)
Definition SedCommandType_of_char (c : ascii) : result SedCommandType :=
  match c with
  | "b" => Ok BRANCH | "#" => Ok COMMENT | "d" => Ok DELETE
  | "D" => Ok DELETE_FIRST_LINE | "=" => Ok EQUAL | "g" => Ok GLOBAL_SUB
  | "h" => Ok HOLD | "H" => Ok HOLD_APPEND | "i" => Ok INSERT
  | ":" => Ok LABEL | "n" => Ok NEXT | "N" => Ok NEXT_READ
  | "p" => Ok PRINT | "P" => Ok PRINT_FIRST_LINE | "q" => Ok QUIT
  | "Q" => Ok QUIT_SILENT | "r" => Ok READ_FILE | "R" => Ok READ_FILE_SILENT
  | "s" => Ok SUBSTITUTE | "t" => Ok TEST | "T" => Ok TEST_BRANCH
  | "x" => Ok EXCHANGE | "y" => Ok TRANSLIT | "w" => Ok WRITE
  | "W" => Ok WRITE_FIRST_LINE | "c" => Ok CHANGE | "l" => Ok SWAPCASE
  | _ => Raise ValueError
  end%char.

(** An address is [Optional[Union[int, str]]]. *)
Inductive address : Set :=
  | AddrInt (n : Z)
  | AddrStr (s : string).

(** The [args] dictionary, by the keys the engine reads. *)
Record Args : Set := {
  arg_label : option string;
  arg_text : option string;
  arg_pattern : option string;
  arg_replacement : option string;
  arg_flags : option string;
  arg_count : option Z }.

Definition no_args : Args :=
  {| arg_label := None; arg_text := None; arg_pattern := None;
     arg_replacement := None; arg_flags := None; arg_count := None |}.

Record SedCommand : Set := {
  addr1 : option address;
  addr2 : option address;
  cmd_type : SedCommandType;
  args : Args }.

Record SedScript : Set := { commands : list SedCommand }.

Record SedPatternSpace : Set := {
  pattern_space : string;
  hold_space : string;
  substituted : bool;
  line_num : Z;
  last_line_num : Z }.

(** [SedPatternSpace()]. *)
Definition SedPatternSpace_init : SedPatternSpace :=
  {| pattern_space := ""; hold_space := ""; substituted := false;
     line_num := 0; last_line_num := 0 |}.

Record SedOptions : Set := {
  quiet : bool;
  extended_regex : bool;
  in_place : option string;
  unbuffered : bool;
  null_data : bool;
  sandbox : bool;
  posix : bool;
  separate : bool;
  line_wrap : Z;
  follow_symlinks : bool }.

(** [SedOptions()]. *)
Definition SedOptions_init : SedOptions :=
  {| quiet := false; extended_regex := false; in_place := None;
     unbuffered := false; null_data := false; sandbox := false;
     posix := false; separate := false; line_wrap := 80;
     follow_symlinks := false |}.

(** ** The host regular-expression engine *)

(** What the program asks of module [re]: [re.compile(pattern, flags)]
    with [re.MULTILINE] always set and [re.VERBOSE] set by the first
    argument, [Pattern.match(string)] tested for a match at the start of
    the string, and [Pattern.sub(repl, string, count)]. *)
Class HostRegex : Type := {
  Pattern : Type;
  re_compile : bool -> string -> result Pattern;
  Pattern_match : Pattern -> string -> bool;
  Pattern_sub : Pattern -> string -> string -> Z -> result string }.

(** [RegexMatcher]: the pattern cache does not change what [compile]
    returns and is left out. *)
Record RegexMatcher : Set := { extended : bool }.

Definition RegexMatcher_compile `{HostRegex} (m : RegexMatcher)
    (pattern : string) : result Pattern :=
  re_compile (extended m) pattern.

Definition RegexMatcher_match `{HostRegex} (m : RegexMatcher)
    (pattern str : string) : result bool :=
  p ← RegexMatcher_compile m pattern; mret (Pattern_match p str).

(** ** Execution engine *)

(** The objects [execute_command] mutates: the pattern-space record, the
    label table and the output buffer. *)
Record Env : Type := {
  ps : SedPatternSpace;
  labels : gmap string nat;
  output : list string }.

Definition with_ps (e : Env) (p : SedPatternSpace) : Env :=
  {| ps := p; labels := labels e; output := output e |}.
Definition with_labels (e : Env) (l : gmap string nat) : Env :=
  {| ps := ps e; labels := l; output := output e |}.
Definition output_append (e : Env) (s : string) : Env :=
  {| ps := ps e; labels := labels e; output := output e ++ [s] |}.

Definition set_pattern_space (p : SedPatternSpace) (s : string) :=
  {| pattern_space := s; hold_space := hold_space p;
     substituted := substituted p; line_num := line_num p;
     last_line_num := last_line_num p |}.
Definition set_hold_space (p : SedPatternSpace) (s : string) :=
  {| pattern_space := pattern_space p; hold_space := s;
     substituted := substituted p; line_num := line_num p;
     last_line_num := last_line_num p |}.
Definition set_substituted (p : SedPatternSpace) (b : bool) :=
  {| pattern_space := pattern_space p; hold_space := hold_space p;
     substituted := b; line_num := line_num p;
     last_line_num := last_line_num p |}.

Section Engine.
Context `{HostRegex}.

(** [parse_address]: [None] when the address is absent or has none of
    the recognised shapes. *)
Definition parse_address (addr : option address) (line_num : Z)
    (pattern_space : string) (matcher : RegexMatcher)
    (last_line_num : Z) : result (option bool) :=
  match addr with
  | None => Ok None
  | Some (AddrInt n) => Ok (Some (line_num =? n))
  | Some (AddrStr a) =>
      if String.eqb a "$" then Ok (Some (line_num =? last_line_num))
      else if PyStr.startswith "/" a then
        m ← RegexMatcher_match matcher (PyStr.slice_1_m1 a) pattern_space;
        mret (Some m)
      else if PyStr.isdigit a then
        n ← PyStr.int a; mret (Some (line_num =? n))
      else if PyStr.contains "~" a then
        match PyStr.split "~" a with
        | [s1; s2] =>
            start ← PyStr.int s1;
            step ← PyStr.int s2;
            if step =? 0 then Raise ZeroDivisionError
            else mret (Some ((line_num - start) mod step =? 0))
        | _ => Raise ValueError
        end
      else Ok None
  end.

Definition matches_command (p : SedPatternSpace) (cmd : SedCommand)
    (matcher : RegexMatcher) : result bool :=
  addr1_match ← parse_address (addr1 cmd) (line_num p) (pattern_space p)
                              matcher (last_line_num p);
  addr2_match ← parse_address (addr2 cmd) (line_num p) (pattern_space p)
                              matcher (last_line_num p);
  match addr1 cmd, addr2 cmd with
  | None, None => Ok true
  | _, _ =>
      match addr1_match with
      | Some true => Ok true
      | Some false => Ok false
      | None =>
          match addr2_match with
          | Some b => Ok b
          | None => Ok true
          end
      end
  end.

(** The text after the first embedded newline: [s.split('\n', 1)[1]]. *)
Definition after_first_newline (s : string) : option string :=
  snd <$> PyStr.split_once PyStr.LF s.

(** [execute_command]: the boolean is the value returned (continue with
    the script or not), the [Env] holds the objects after the call.
    The parameters [script] and [input_file] are never read. *)
Definition execute_command (e : Env) (cmd : SedCommand)
    (options : SedOptions) : result (bool * Env) :=
  m ← matches_command (ps e) cmd
        {| extended := extended_regex options |};
  if negb m then Ok (true, e)
  else
    match cmd_type cmd with
    | COMMENT => Ok (true, e)
    | LABEL =>
        Ok (true,
            with_labels e
              (<[default "" (arg_label (args cmd)) := 0%nat]> (labels e)))
    | BRANCH =>
        let label := default "0" (arg_label (args cmd)) in
        if decide (is_Some (labels e !! label)) then Ok (false, e)
        else Ok (true, e)
    | DELETE => Ok (false, with_ps e (set_pattern_space (ps e) ""))
    | DELETE_FIRST_LINE =>
        match after_first_newline (pattern_space (ps e)) with
        | Some rest => Ok (false, with_ps e (set_pattern_space (ps e) rest))
        | None => Ok (false, with_ps e (set_pattern_space (ps e) ""))
        end
    | PRINT =>
        Ok (true,
            output_append e (pattern_space (ps e) ++ String PyStr.LF ""))
    | EQUAL =>
        Ok (true,
            output_append e (pretty (line_num (ps e)) ++ String PyStr.LF ""))
    | NEXT => Ok (false, e)
    | INSERT =>
        text ← subscript (arg_text (args cmd));
        Ok (true, output_append e text)
    | QUIT => Ok (false, e)
    | SUBSTITUTE =>
        let matcher := {| extended := extended_regex options |} in
        pat ← subscript (arg_pattern (args cmd));
        repl ← subscript (arg_replacement (args cmd));
        let flags := default "" (arg_flags (args cmd)) in
        let global_flag := PyStr.contains "g" flags in
        let count := default 0 (arg_count (args cmd)) in
        let count := if 0 <? count then count
                     else if global_flag then 0 else 1 in
        re ← RegexMatcher_compile matcher pat;
        res ← Pattern_sub re repl (pattern_space (ps e)) count;
        Ok (true,
            with_ps e
              (set_pattern_space
                 (set_substituted (ps e)
                    (negb (String.eqb res (pattern_space (ps e)))))
                 res))
    | HOLD =>
        Ok (true, with_ps e (set_hold_space (ps e) (pattern_space (ps e))))
    | HOLD_APPEND =>
        Ok (true,
            with_ps e
              (set_hold_space (ps e)
                 (hold_space (ps e) ++ String PyStr.LF ""
                    ++ pattern_space (ps e))))
    | EXCHANGE =>
        Ok (true,
            with_ps e
              (set_hold_space
                 (set_pattern_space (ps e) (hold_space (ps e)))
                 (pattern_space (ps e))))
    | TEST => if substituted (ps e) then Ok (false, e) else Ok (true, e)
    | TEST_BRANCH =>
        if negb (substituted (ps e)) then Ok (false, e) else Ok (true, e)
    | _ => Ok (true, e)
    end.
End Engine.

(** ** The cycle and the run *)

(** What the generator [PySedCore_process] holds between two lines: the
    objects of [Env] (the output buffer is [output_buffer]) and the lines
    it has yielded so far. *)
Record Run : Type := {
  env : Env;
  yielded : list string }.

(** [for line in output_buffer: yield line] then [output_buffer.clear()]. *)
Definition flush (r : Run) : Run :=
  {| env := {| ps := ps (env r); labels := labels (env r); output := [] |};
     yielded := yielded r ++ output (env r) |}.

(** The state a cycle starts its commands in: the record read becomes the
    pattern space, [line_num] is incremented and copied to
    [last_line_num]. *)
Definition begin_cycle (p : SedPatternSpace) (record : string)
    : SedPatternSpace :=
  {| pattern_space := record; hold_space := hold_space p;
     substituted := substituted p; line_num := line_num p + 1;
     last_line_num := line_num p + 1 |}.

(** [ps.line_num = 0] at the head of the loop over streams. *)
Definition begin_stream (p : SedPatternSpace) : SedPatternSpace :=
  {| pattern_space := pattern_space p; hold_space := hold_space p;
     substituted := substituted p; line_num := 0;
     last_line_num := last_line_num p |}.

(** The successive values given to [ps.pattern_space] while a stream is
    read: in null-data mode the whole text, once, if anything is left of
    it without its trailing NULs; otherwise each line without its
    newline. A stream is the text it delivers. *)
Definition records (options : SedOptions) (stream : string) : list string :=
  if null_data options then
    match PyStr.rstrip_char PyStr.NUL stream with
    | "" => []
    | line => [line ++ String PyStr.NUL ""]
    end
  else map (PyStr.rstrip_char PyStr.LF) (PyStr.readlines stream).

Section Process.
Context `{HostRegex}.

(** One turn of the inner [while]: run the command at [cmd_idx], then
    choose the next index. *)
Definition step (script : SedScript) (options : SedOptions) (e : Env)
    (cmd_idx : nat) : result (bool * nat * Env) :=
  match commands script !! cmd_idx with
  | None => Raise IndexError
  | Some cmd =>
      '(continue_script, e') ← execute_command e cmd options;
      if decide (cmd_type cmd = BRANCH) then
        let label := default "0" (arg_label (args cmd)) in
        match labels e' !! label with
        | Some target => Ok (continue_script, target, e')
        | None => Ok (continue_script, S cmd_idx, e')
        end
      else Ok (continue_script, S cmd_idx, e')
  end.

(** [while continue_script and cmd_idx < len(script.commands)], with a
    bound on the number of turns. *)
Fixpoint command_loop (fuel : nat) (script : SedScript)
    (options : SedOptions) (e : Env) (continue_script : bool)
    (cmd_idx : nat) : result Env :=
  if continue_script && (cmd_idx <? length (commands script))%nat then
    match fuel with
    | O => OutOfFuel
    | S fuel' =>
        '(c, i, e') ← step script options e cmd_idx;
        command_loop fuel' script options e' c i
    end
  else Ok e.

(** The body of the loop over the lines of a stream, from the point
    where the line has been read. *)
Definition cycle (fuel : nat) (script : SedScript) (options : SedOptions)
    (r : Run) (record : string) : result Run :=
  let e0 := with_ps (env r) (begin_cycle (ps (env r)) record) in
  e1 ← command_loop fuel script options e0 true 0;
  let e2 := if quiet options then e1
            else output_append e1
                   (pattern_space (ps e1) ++ String PyStr.LF "") in
  let r2 := {| env := e2; yielded := yielded r |} in
  mret (if unbuffered options then flush r2 else r2).

Fixpoint cycles (fuel : nat) (script : SedScript) (options : SedOptions)
    (r : Run) (recs : list string) : result Run :=
  match recs with
  | [] => Ok r
  | record :: recs' =>
      r' ← cycle fuel script options r record;
      cycles fuel script options r' recs'
  end.

(** The body of [for stream in input_streams]. *)
Definition process_stream (fuel : nat) (script : SedScript)
    (options : SedOptions) (r : Run) (stream : string) : result Run :=
  let r0 := {| env := with_ps (env r) (begin_stream (ps (env r)));
               yielded := yielded r |} in
  r1 ← cycles fuel script options r0 (records options stream);
  mret (if separate options then flush r1 else r1).

Fixpoint process_streams (fuel : nat) (script : SedScript)
    (options : SedOptions) (r : Run) (streams : list string) : result Run :=
  match streams with
  | [] => Ok r
  | stream :: streams' =>
      r' ← process_stream fuel script options r stream;
      process_streams fuel script options r' streams'
  end.

Definition Run_init : Run :=
  {| env := {| ps := SedPatternSpace_init; labels := ∅; output := [] |};
     yielded := [] |}.

(** [PySedCore_process]: all the lines the generator yields, in order,
    when it runs to its end; [fuel] bounds the command loop of each
    cycle. *)
Definition PySedCore_process (fuel : nat) (input_streams : list string)
    (script : SedScript) (options : SedOptions) : result (list string) :=
  r ← process_streams fuel script options Run_init input_streams;
  mret (yielded (flush r)).
End Process.

(** ** Script compiler *)

(** A span of leading characters satisfying [p] and what follows it. *)
Fixpoint span (p : ascii -> bool) (s : string) : string * string :=
  match s with
  | "" => ("", "")
  | String c s' =>
      if p c then let '(a, b) := span p s' in (String c a, b)
      else ("", s)
  end.

(** The first group of the pattern of [parse_addresses],
    [(\d+|/[^/]+/|\$)], matched at the start of [line]: the address and
    the text after it. *)
Definition match_address (line : string) : option (string * string) :=
  match line with
  | String "$"%char rest => Some ("$", rest)
  | String "/"%char rest =>
      match span (fun c => negb (Ascii.eqb c "/"%char)) rest with
      | ("", _) => None
      | (body, String "/"%char rest') => Some ("/" ++ body ++ "/", rest')
      | _ => None
      end
  | _ =>
      match span PyStr.is_decimal line with
      | ("", _) => None
      | (digits, rest) => Some (digits, rest)
      end
  end.

(** [re.match(r'^(\d+|/[^/]+/|\$)(?:,(\d+|/[^/]+/|\$))?\s*([a-z])', line)]
    on a line without a comma, where the optional group cannot take part:
    the first group and [line[match.end():]]. *)
Definition match_address_command (line : string) : option (string * string) :=
  match match_address line with
  | None => None
  | Some (a, rest) =>
      match PyStr.lstrip_by PyStr.is_space rest with
      | String c tail => if PyStr.is_lower c then Some (a, tail) else None
      | "" => None
      end
  end.

Definition parse_addresses (line : string)
    : result (option string * option string * string) :=
  match PyStr.split_once "," line with
  | Some (part0, rest) =>
      match PyStr.split_once "," rest with
      | Some (a2, cmd) =>
          Ok (Some (PyStr.strip part0), Some (PyStr.strip a2), PyStr.strip cmd)
      | None => Ok (Some (PyStr.strip part0), None, PyStr.strip rest)
      end
  | None =>
      match line with
      | "" => Raise IndexError
      | String c _ =>
          if PyStr.contains c "0123456789/$" then
            match match_address_command line with
            | Some (a1, tail) => Ok (Some a1, None, PyStr.strip tail)
            | None => Ok (None, None, line)
            end
          else Ok (None, None, line)
      end
  end.

(** The text a dot-star group matches: up to the first newline. *)
Definition before_newline (s : string) : string :=
  match PyStr.split_once PyStr.LF s with
  | Some (a, _) => a
  | None => s
  end.

(** The [re.match] of [parse_substitute]: an [s], the group
    [/[^/]+/[^/]+/] and, as second group, the rest of the line. Returns
    the pattern and the replacement (the two halves of the first group)
    and the flags. *)
Definition match_substitute (cmd_str : string)
    : option (string * string * string) :=
  match cmd_str with
  | String "s"%char (String "/"%char rest) =>
      match span (fun c => negb (Ascii.eqb c "/"%char)) rest with
      | ("", _) => None
      | (pattern, String "/"%char rest1) =>
          match span (fun c => negb (Ascii.eqb c "/"%char)) rest1 with
          | ("", _) => None
          | (repl, String "/"%char rest2) =>
              Some (pattern, repl, before_newline rest2)
          | _ => None
          end
      | _ => None
      end
  | _ => None
  end.

Definition parse_substitute (a1 a2 : option address) (cmd_str : string)
    : SedCommand :=
  match match_substitute cmd_str with
  | Some (pattern, repl, flags) =>
      {| addr1 := a1; addr2 := a2; cmd_type := SUBSTITUTE;
         args := {| arg_label := None; arg_text := None;
                    arg_pattern := Some pattern;
                    arg_replacement := Some repl;
                    arg_flags := Some flags; arg_count := None |} |}
  | None =>
      {| addr1 := a1; addr2 := a2; cmd_type := SUBSTITUTE; args := no_args |}
  end.

(** The body of the loop of [PySedCore_parse_script] for one line of the
    script. *)
Definition parse_line (raw : string) : result SedCommand :=
  let line := PyStr.rstrip raw in
  if String.eqb line "" || PyStr.startswith "#" line then
    Ok {| addr1 := None; addr2 := None; cmd_type := COMMENT;
          args := no_args |}
  else
    '(a1, a2, cmd_str) ← parse_addresses line;
    let a1 := AddrStr <$> a1 in
    let a2 := AddrStr <$> a2 in
    if PyStr.startswith ":" cmd_str then
      Ok {| addr1 := a1; addr2 := a2; cmd_type := LABEL;
            args := {| arg_label := Some (String.substring 1
                                            (String.length cmd_str - 1)
                                            cmd_str);
                       arg_text := None; arg_pattern := None;
                       arg_replacement := None; arg_flags := None;
                       arg_count := None |} |}
    else if PyStr.startswith "s" cmd_str then
      Ok (parse_substitute a1 a2 cmd_str)
    else
      match cmd_str with
      | "" => Raise IndexError
      | String c _ =>
          t ← SedCommandType_of_char c;
          Ok {| addr1 := a1; addr2 := a2; cmd_type := t; args := no_args |}
      end.

Fixpoint parse_lines (lines : list string) : result (list SedCommand) :=
  match lines with
  | [] => Ok []
  | raw :: lines' =>
      cmd ← parse_line raw;
      cmds ← parse_lines lines';
      Ok (cmd :: cmds)
  end.

(** [PySedCore_parse_script] on script text (the [Path] case only reads
    the text from a file first). *)
Definition PySedCore_parse_script (content : string) : result SedScript :=
  cmds ← parse_lines (PyStr.split PyStr.LF content);
  Ok {| commands := cmds |}.

(** What [PySedCore_main] does with one script expression and its input
    streams, outside in-place mode: compile, then run. *)
Definition pysed `{HostRegex} (fuel : nat) (expression : string)
    (input_streams : list string) (options : SedOptions)
    : result (list string) :=
  script ← PySedCore_parse_script expression;
  PySedCore_process fuel input_streams script options.

(** ** A regular-expression engine for plain text

    [literal_regex] is module [re] on patterns and replacement texts that
    hold no character special to [re]: the pattern matches its own text,
    [match] asks for it at the start of the string, and [sub] replaces the
    leftmost non-overlapping occurrences, all of them when [count] is 0
    and at most [count] otherwise. *)

Definition spend (budget : option nat) : option nat :=
  match budget with
  | Some (S n) => Some n
  | b => b
  end.

Definition affordable (budget : option nat) : bool :=
  match budget with
  | Some O => false
  | _ => true
  end.

Fixpoint literal_sub (pat repl : string) (budget : option nat) (skip : nat)
    (s : string) : string :=
  match s with
  | "" =>
      match skip, pat with
      | O, "" => if affordable budget then repl else ""
      | _, _ => ""
      end
  | String c s' =>
      match skip with
      | S k => literal_sub pat repl budget k s'
      | O =>
          if affordable budget && String.prefix pat s then
            match pat with
            | "" => repl ++ String c (literal_sub pat repl (spend budget) 0 s')
            | _ => repl ++ literal_sub pat repl (spend budget)
                             (String.length pat - 1) s'
            end
          else String c (literal_sub pat repl budget 0 s')
      end
  end.

#[global] Instance literal_regex : HostRegex := {|
  Pattern := string;
  re_compile := fun _ pattern => Ok pattern;
  Pattern_match := fun pattern s => String.prefix pattern s;
  Pattern_sub := fun pattern repl s count =>
    Ok (literal_sub pattern repl
          (if count =? 0 then None else Some (Z.to_nat count)) 0 s) |}.

(** * Vocabulary of the properties *)

(** ** Commands, options and inputs used as examples *)

Definition print_cmd : SedCommand :=
  {| addr1 := None; addr2 := None; cmd_type := PRINT; args := no_args |}.

Definition equal_cmd : SedCommand :=
  {| addr1 := None; addr2 := None; cmd_type := EQUAL; args := no_args |}.

Definition test_cmd : SedCommand :=
  {| addr1 := None; addr2 := None; cmd_type := TEST; args := no_args |}.

Definition transliterate_cmd : SedCommand :=
  {| addr1 := None; addr2 := None; cmd_type := TRANSLIT; args := no_args |}.

Definition label_cmd (name : string) : SedCommand :=
  {| addr1 := None; addr2 := None; cmd_type := LABEL;
     args := {| arg_label := Some name; arg_text := None;
                arg_pattern := None; arg_replacement := None;
                arg_flags := None; arg_count := None |} |}.

Definition branch_cmd (name : string) : SedCommand :=
  {| addr1 := None; addr2 := None; cmd_type := BRANCH;
     args := {| arg_label := Some name; arg_text := None;
                arg_pattern := None; arg_replacement := None;
                arg_flags := None; arg_count := None |} |}.

Definition substitute_cmd (pattern repl flags : string) : SedCommand :=
  {| addr1 := None; addr2 := None; cmd_type := SUBSTITUTE;
     args := {| arg_label := None; arg_text := None;
                arg_pattern := Some pattern; arg_replacement := Some repl;
                arg_flags := Some flags; arg_count := None |} |}.

Definition substitute_counted (pattern repl : string) (count : Z)
    : SedCommand :=
  {| addr1 := None; addr2 := None; cmd_type := SUBSTITUTE;
     args := {| arg_label := None; arg_text := None;
                arg_pattern := Some pattern; arg_replacement := Some repl;
                arg_flags := Some ""; arg_count := Some count |} |}.

Definition delete_2_4 : SedCommand :=
  {| addr1 := Some (AddrStr "2"); addr2 := Some (AddrStr "4");
     cmd_type := DELETE; args := no_args |}.

Definition quiet_options : SedOptions :=
  {| quiet := true; extended_regex := false; in_place := None;
     unbuffered := false; null_data := false; sandbox := false;
     posix := false; separate := false; line_wrap := 80;
     follow_symlinks := false |}.

Definition five_lines : string :=
  "1" ++ String PyStr.LF "2" ++ String PyStr.LF "3" ++ String PyStr.LF "4"
    ++ String PyStr.LF "5" ++ String PyStr.LF "".

(** The pattern-space record as it stands while line [n], of text [text],
    is processed. *)
Definition at_line (n : Z) (text : string) : SedPatternSpace :=
  begin_cycle
    {| pattern_space := ""; hold_space := ""; substituted := false;
       line_num := n - 1; last_line_num := n - 1 |} text.

(** ** Ranges and labels in the words of the specification *)

(** The range discipline in the words of the specification: line [j] of
    [lines] lies in a range opened at line [i] when address1 matches line
    [i], [i <= j], and no line strictly between them matches address2 (so
    that [j] is at most the first later line matching address2). *)
Definition in_open_range `{HostRegex} (cmd : SedCommand) (m : RegexMatcher)
    (lines : list SedPatternSpace) (i j : nat) : Prop :=
  (i <= j)%nat /\
  (exists p, lines !! i = Some p /\
     parse_address (addr1 cmd) (line_num p) (pattern_space p) m
       (last_line_num p) = Ok (Some true)) /\
  (forall k p, (i < k < j)%nat -> lines !! k = Some p ->
     parse_address (addr2 cmd) (line_num p) (pattern_space p) m
       (last_line_num p) <> Ok (Some true)).

Definition label_of (cmd : SedCommand) : string :=
  default "" (arg_label (args cmd)).

Definition branch_target (cmd : SedCommand) : string :=
  default "0" (arg_label (args cmd)).

(** The table the specification describes: every label command of the
    script is mapped to its own index. *)
Definition resolves (script : SedScript) (table : gmap string nat) : Prop :=
  forall (i : nat) (cmd : SedCommand),
    commands script !! i = Some cmd -> cmd_type cmd = LABEL ->
    table !! label_of cmd = Some i.

(** A script holds a branch, test or test-branch command whose non-empty
    label no label command of the script declares. *)
Definition has_undeclared_label (script : SedScript) : Prop :=
  exists (cmd : SedCommand) (name : string),
    In cmd (commands script) /\
    In (cmd_type cmd) [BRANCH; TEST; TEST_BRANCH] /\
    arg_label (args cmd) = Some name /\ name <> "" /\
    forall d : SedCommand,
      In d (commands script) -> cmd_type d = LABEL ->
      arg_label (args d) <> Some name.

(** ** Lines produced by a run *)

(** Every line produced so far, yielded or still buffered. *)
Definition emitted (r : Run) : list string := yielded r ++ output (env r).

(** [''.join(l)]. *)
Definition join (l : list string) : string := fold_right String.append "" l.

(** The text is empty or its last character is a newline. *)
Fixpoint newline_terminated (s : string) : bool :=
  match s with
  | "" => true
  | String c "" => Ascii.eqb c PyStr.LF
  | String _ s' => newline_terminated s'
  end.

(** What a run of the script [=] prints for the records of one stream
    when the first of them is given the number [from]: each number, then
    the record itself unless the quiet option is set. *)
Fixpoint numbered (quiet : bool) (from : Z) (recs : list string)
    : list string :=
  match recs with
  | [] => []
  | record :: recs' =>
      (pretty from ++ String PyStr.LF "")
        :: ((if quiet then []
             else [(record ++ String PyStr.LF "")%string])
              ++ numbered quiet (from + 1) recs')%list
  end.

(** The lines of a run whose command loop only appends [f p] to the
    output, [p] being the pattern-space record the cycle starts with:
    those of one cycle, of the cycles of a list of records, and of a list
    of streams; [stream_end] is the pattern-space record a stream leaves
    behind. *)
Section PrintedLines.
Variables (options : SedOptions) (f : SedPatternSpace -> list string).

Definition cycle_lines (p : SedPatternSpace) : list string :=
  (f p ++ if quiet options then []
          else [(pattern_space p ++ String PyStr.LF "")%string])%list.

Fixpoint cycles_lines (p : SedPatternSpace) (recs : list string)
    : list string :=
  match recs with
  | [] => []
  | record :: recs' =>
      (cycle_lines (begin_cycle p record)
         ++ cycles_lines (begin_cycle p record) recs')%list
  end.

Definition stream_end (p : SedPatternSpace) (stream : string)
    : SedPatternSpace :=
  fold_left begin_cycle (records options stream) (begin_stream p).

Fixpoint streams_lines (p : SedPatternSpace) (streams : list string)
    : list string :=
  match streams with
  | [] => []
  | stream :: streams' =>
      (cycles_lines (begin_stream p) (records options stream)
         ++ streams_lines (stream_end p stream) streams')%list
  end.

End PrintedLines.

(** What a script line starting with [b] compiles to. *)
Definition branch_cmd_compiled : SedCommand :=
  {| addr1 := None; addr2 := None; cmd_type := BRANCH; args := no_args |}.

(** Every entry of the table is the index 0, under the name of a label
    command of the script. *)
Definition zero_table (script : SedScript) (table : gmap string nat) : Prop :=
  forall (k : string) (v : nat),
    table !! k = Some v ->
    v = 0%nat /\
    exists cmd : SedCommand,
      In cmd (commands script) /\ cmd_type cmd = LABEL /\ label_of cmd = k.

(** The regular-expression engine answers every call: it returns or
    raises. *)
Definition regex_answers `{HostRegex} : Prop :=
  (forall (ext : bool) (pattern : string),
     re_compile ext pattern <> OutOfFuel) /\
  (forall (re : Pattern) (repl s : string) (count : Z),
     Pattern_sub re repl s count <> OutOfFuel).

(** Two commands run one after the other, the second only if the first
    returns "continue", as the command loop does. *)
Definition execute_both `{HostRegex} (e : Env) (c1 c2 : SedCommand)
    (options : SedOptions) : result (bool * Env) :=
  match execute_command e c1 options with
  | Ok (true, e1) => execute_command e1 c2 options
  | stopped => stopped
  end.

(** The kinds [execute_command] has no branch for, and the comment. *)
Definition inert (t : SedCommandType) : bool :=
  match t with
  | COMMENT | GLOBAL_SUB | NEXT_READ | PRINT_FIRST_LINE | QUIT_SILENT
  | READ_FILE | READ_FILE_SILENT | WRITE | WRITE_FIRST_LINE | TRANSLIT
  | CHANGE | SWAPCASE => true
  | _ => false
  end.

(** The kinds whose branch of [execute_command] appends to the output. *)
Definition prints (t : SedCommandType) : bool :=
  match t with
  | PRINT | EQUAL | INSERT => true
  | _ => false
  end.

(** The records of the streams, each followed by a newline: what a run
    that changes no pattern space and prints nothing of its own yields
    without the quiet option. *)
Definition copied (options : SedOptions) (streams : list string)
    : list string :=
  flat_map
    (fun stream =>
       map (fun record => record ++ String PyStr.LF "")
         (records options stream))
    streams.

(** The lines printed at the end of a cycle: one, or none with the quiet
    option. *)
Definition printed_per_record (options : SedOptions) : nat :=
  if quiet options then 0 else 1.

(** Two option records agree on the fields the engine reads to compute
    lines: [quiet], [extended_regex] and [null_data]. *)
Definition same_engine_options (o1 o2 : SedOptions) : Prop :=
  quiet o1 = quiet o2 /\ extended_regex o1 = extended_regex o2 /\
  null_data o1 = null_data o2.

(** Two states of [execute_command] that differ in the output buffer
    only. *)
Definition same_but_output (e1 e2 : Env) : Prop :=
  ps e1 = ps e2 /\ labels e1 = labels e2.

(** Two states of the run that have produced the same lines, yielded or
    still buffered, and agree on the rest. *)
Definition same_lines (r1 r2 : Run) : Prop :=
  same_but_output (env r1) (env r2) /\ emitted r1 = emitted r2.

(** The value of a result, transformed. *)
Definition result_map {A B : Type} (f : A -> B) (r : result A) : result B :=
  match r with
  | Ok a => Ok (f a)
  | Raise x => Raise x
  | OutOfFuel => OutOfFuel
  end.

(** ** The pattern cache of [RegexMatcher] *)

(** A [RegexMatcher] object with its dictionary [patterns]. *)
Record RegexMatcherObject `{HostRegex} : Type := {
  matcher_extended : bool;
  matcher_patterns : gmap string Pattern }.

(** [RegexMatcher(extended)]. *)
Definition RegexMatcher_new `{HostRegex} (extended : bool)
    : RegexMatcherObject :=
  {| matcher_extended := extended; matcher_patterns := ∅ |}.

(** [RegexMatcher.compile] with its cache: the compiled pattern and the
    object after the call. *)
Definition RegexMatcher_compile_cached `{HostRegex}
    (m : RegexMatcherObject) (pattern : string)
    : result (Pattern * RegexMatcherObject) :=
  match matcher_patterns m !! pattern with
  | Some regex => Ok (regex, m)
  | None =>
      match re_compile (matcher_extended m) pattern with
      | Ok regex =>
          Ok (regex,
              {| matcher_extended := matcher_extended m;
                 matcher_patterns :=
                   <[pattern := regex]> (matcher_patterns m) |})
      | Raise x => Raise x
      | OutOfFuel => OutOfFuel
      end
  end.

(** Every cached pattern is what [re.compile] returns for its text under
    the flags of the object. *)
Definition cache_sound `{HostRegex} (m : RegexMatcherObject) : Prop :=
  forall (pattern : string) (regex : Pattern),
    matcher_patterns m !! pattern = Some regex ->
    re_compile (matcher_extended m) pattern = Ok regex.

(** ** Script texts *)

(** The text is made of decimal digits only. *)
Fixpoint all_decimal (s : string) : bool :=
  match s with
  | "" => true
  | String c s' => PyStr.is_decimal c && all_decimal s'
  end.

(** * Properties *)

(** Unfolds the sequencing of the [result] monad. *)
Ltac unfold_result :=
  unfold mbind, mret, result_bind, result_ret in *.

(** Splits a successful call of [execute_command] into the branches that
    can have produced it. *)
Ltac execute_cases Hexec :=
  unfold execute_command, subscript, RegexMatcher_compile in Hexec;
  unfold_result;
  repeat (case_match; simplify_eq/=; try done).

(** ** What [matches_command] and [execute_command] leave alone *)

(** A command without addresses applies to every line. *)
Lemma matches_command_no_address `{HostRegex} (p : SedPatternSpace)
    (cmd : SedCommand) (m : RegexMatcher) :
  addr1 cmd = None -> addr2 cmd = None -> matches_command p cmd m = Ok true.
Proof.
  intros H1 H2. unfold matches_command. rewrite H1, H2. reflexivity.
Qed.

(** Only a label command that applies writes the label table. *)
Lemma execute_command_labels `{HostRegex} (e e' : Env) (cmd : SedCommand)
    (options : SedOptions) (c : bool) :
  execute_command e cmd options = Ok (c, e') ->
  cmd_type cmd <> LABEL -> labels e' = labels e.
Proof. intros Hexec Hkind. execute_cases Hexec. Qed.


(** No command writes the line counters. *)
Lemma execute_command_line_num `{HostRegex} (e e' : Env) (cmd : SedCommand)
    (options : SedOptions) (c : bool) :
  execute_command e cmd options = Ok (c, e') ->
  line_num (ps e') = line_num (ps e) /\
  last_line_num (ps e') = last_line_num (ps e).
Proof. intros Hexec. execute_cases Hexec. Qed.

(** ** Runs of scripts whose cycle is a fixed sequence of prints *)

Lemma emitted_flush (r : Run) : emitted (flush r) = emitted r.
Proof. unfold emitted, flush. simpl. apply app_nil_r. Qed.

Lemma yielded_flush (r : Run) : yielded (flush r) = emitted r.
Proof. reflexivity. Qed.

Section PrintingScripts.
Context `{HostRegex}.
Variables (fuel : nat) (script : SedScript) (options : SedOptions).
Variable f : SedPatternSpace -> list string.
Hypothesis loop_appends : forall e : Env,
  command_loop fuel script options e true 0
  = Ok {| ps := ps e; labels := labels e; output := output e ++ f (ps e) |}.

Lemma cycle_emits (r : Run) (record : string) :
  exists r' : Run,
    cycle fuel script options r record = Ok r' /\
    ps (env r') = begin_cycle (ps (env r)) record /\
    emitted r' =
      (emitted r ++ cycle_lines options f (begin_cycle (ps (env r)) record))%list.
Proof.
  unfold cycle. rewrite loop_appends. unfold_result.
  eexists. split; [reflexivity |].
  unfold cycle_lines, emitted.
  destruct (unbuffered options), (quiet options); simpl;
    rewrite ?app_nil_r, <- ?app_assoc; auto.
Qed.

Lemma cycles_emit (recs : list string) (r : Run) :
  exists r' : Run,
    cycles fuel script options r recs = Ok r' /\
    ps (env r') = fold_left begin_cycle recs (ps (env r)) /\
    emitted r' = (emitted r ++ cycles_lines options f (ps (env r)) recs)%list.
Proof.
  revert r. induction recs as [| record recs IH]; intros r; simpl.
  - exists r. rewrite app_nil_r. auto.
  - destruct (cycle_emits r record) as (r1 & Hc & Hps & Hem).
    rewrite Hc. unfold_result.
    destruct (IH r1) as (r2 & Hcs & Hps2 & Hem2).
    exists r2. rewrite Hcs, Hps2, Hem2, Hem, Hps, <- app_assoc. auto.
Qed.

Lemma process_stream_emits (r : Run) (stream : string) :
  exists r' : Run,
    process_stream fuel script options r stream = Ok r' /\
    ps (env r') = stream_end options (ps (env r)) stream /\
    emitted r' =
      (emitted r
         ++ cycles_lines options f (begin_stream (ps (env r)))
              (records options stream))%list.
Proof.
  unfold process_stream.
  match goal with
  | |- context [cycles _ _ _ ?r0 ?recs] =>
      destruct (cycles_emit recs r0) as (r1 & Hcs & Hps & Hem)
  end.
  rewrite Hcs. unfold_result.
  eexists. split; [reflexivity |].
  destruct (separate options); rewrite ?emitted_flush; simpl;
    rewrite Hps, Hem; auto.
Qed.

Lemma process_streams_emit (streams : list string) (r : Run) :
  exists r' : Run,
    process_streams fuel script options r streams = Ok r' /\
    emitted r' = (emitted r ++ streams_lines options f (ps (env r)) streams)%list.
Proof.
  revert r. induction streams as [| stream streams IH]; intros r; simpl.
  - exists r. rewrite app_nil_r. auto.
  - destruct (process_stream_emits r stream) as (r1 & Hp & Hps & Hem).
    rewrite Hp. unfold_result.
    destruct (IH r1) as (r2 & Hps2 & Hem2).
    exists r2. rewrite Hps2, Hem2, Hem, Hps, <- app_assoc. auto.
Qed.

Lemma process_printing_script (streams : list string) :
  PySedCore_process fuel streams script options
  = Ok (streams_lines options f SedPatternSpace_init streams).
Proof.
  unfold PySedCore_process.
  destruct (process_streams_emit streams Run_init) as (r & Hp & Hem).
  rewrite Hp. unfold_result. rewrite yielded_flush, Hem. reflexivity.
Qed.
End PrintingScripts.

Lemma print_loop `{HostRegex} (fuel : nat) (options : SedOptions) (e : Env) :
  command_loop (S fuel) {| commands := [print_cmd] |} options e true 0
  = Ok {| ps := ps e; labels := labels e;
          output := output e
                      ++ [pattern_space (ps e) ++ String PyStr.LF ""] |}.
Proof. destruct fuel; reflexivity. Qed.

Lemma print_cycles_lines (options : SedOptions) (p : SedPatternSpace)
    (recs : list string) :
  quiet options = true ->
  cycles_lines options
    (fun p => [pattern_space p ++ String PyStr.LF ""]) p recs
  = map (fun record => record ++ String PyStr.LF "") recs.
Proof.
  intros Hq. revert p. induction recs as [| record recs IH]; intros p;
    simpl; [reflexivity |].
  unfold cycle_lines. rewrite Hq, IH. reflexivity.
Qed.

Lemma equal_loop `{HostRegex} (fuel : nat) (options : SedOptions) (e : Env) :
  command_loop (S fuel) {| commands := [equal_cmd] |} options e true 0
  = Ok {| ps := ps e; labels := labels e;
          output := output e
                      ++ [pretty (line_num (ps e)) ++ String PyStr.LF ""] |}.
Proof. destruct fuel; reflexivity. Qed.

Lemma equal_cycles_lines (options : SedOptions) (p : SedPatternSpace)
    (recs : list string) :
  cycles_lines options
    (fun p => [pretty (line_num p) ++ String PyStr.LF ""]) p recs
  = numbered (quiet options) (line_num p + 1) recs.
Proof.
  revert p. induction recs as [| record recs IH]; intros p; simpl;
    [reflexivity |].
  unfold cycle_lines. rewrite IH. simpl. reflexivity.
Qed.

(** ** Reading lines and joining them *)

Lemma string_app_assoc (a b c : string) : (a ++ b) ++ c = a ++ (b ++ c).
Proof.
  induction a as [| x a IH]; [reflexivity |].
  change (String x ((a ++ b) ++ c) = String x (a ++ (b ++ c))).
  now rewrite IH.
Qed.

Lemma join_app (l1 l2 : list string) :
  join (l1 ++ l2)%list = join l1 ++ join l2.
Proof.
  induction l1 as [| a l1 IH]; simpl; [reflexivity |].
  now rewrite IH, string_app_assoc.
Qed.

Lemma contains_app (c : ascii) (a b : string) :
  PyStr.contains c (a ++ b) = PyStr.contains c a || PyStr.contains c b.
Proof.
  induction a as [| x a IH]; simpl; [reflexivity |].
  now rewrite IH, orb_assoc.
Qed.

(** Stripping the newlines at the end of a line that has a single one, as
    its last character, removes just that one. *)
Lemma rstrip_line (t : string) :
  PyStr.contains PyStr.LF t = false ->
  PyStr.rstrip_char PyStr.LF (t ++ String PyStr.LF "") = t.
Proof.
  unfold PyStr.rstrip_char.
  induction t as [| c t IH]; simpl; [reflexivity |].
  intros Hc. apply orb_false_iff in Hc as [Hc Ht].
  rewrite (IH Ht). rewrite Hc. destruct t; reflexivity.
Qed.

(** On a text that is empty or ends with a newline, the lines read, each
    stripped of its newline and given one back, join into the text. *)
Lemma readlines_from_join (s cur : string) :
  PyStr.contains PyStr.LF cur = false ->
  newline_terminated s = true -> (s = "" -> cur = "") ->
  join (map (fun l => PyStr.rstrip_char PyStr.LF l ++ String PyStr.LF "")
          (PyStr.readlines_from cur s)) = cur ++ s.
Proof.
  revert cur. induction s as [| c s IH]; intros cur Hcur Hterm Hempty.
  - rewrite (Hempty eq_refl). reflexivity.
  - simpl. destruct (Ascii.eqb_spec c PyStr.LF) as [-> | Hne].
    + simpl. rewrite (rstrip_line cur Hcur), IH; try reflexivity.
      * simpl. now rewrite string_app_assoc.
      * destruct s; [reflexivity | exact Hterm].
    + assert (s <> "") as Hs.
      { intros ->. simpl in Hterm.
        destruct (Ascii.eqb_spec c PyStr.LF); congruence. }
      rewrite IH.
      * now rewrite string_app_assoc.
      * rewrite contains_app, Hcur. cbn [PyStr.contains orb].
        rewrite Ascii.eqb_sym.
        destruct (Ascii.eqb_spec c PyStr.LF); [contradiction | reflexivity].
      * destruct s; [contradiction | exact Hterm].
      * intros; contradiction.
Qed.

(** ** Two-address commands *)

(** C1, as stated, fails: the command [2,4] applies to line 2 and, with
    no line matching address2 in between, would have to apply to line 3;
    [matches_command] says it does not. *)
Lemma C1_range_not_stateful :
  ~ (forall (cmd : SedCommand) (m : RegexMatcher)
       (lines : list SedPatternSpace) (i j : nat) (p : SedPatternSpace),
       is_Some (addr1 cmd) -> is_Some (addr2 cmd) ->
       in_open_range cmd m lines i j -> lines !! j = Some p ->
       matches_command p cmd m = Ok true).
Proof.
  intros claim.
  specialize (claim delete_2_4 {| extended := false |}
    [at_line 1 "a"; at_line 2 "b"; at_line 3 "c"; at_line 4 "d";
     at_line 5 "e"] 1%nat 2%nat (at_line 3 "c")).
  assert (matches_command (at_line 3 "c") delete_2_4 {| extended := false |}
          = Ok false) as Hcode by reflexivity.
  rewrite claim in Hcode; [discriminate | eauto | eauto | | reflexivity].
  split; [lia |]. split.
  - exists (at_line 2 "b"). split; reflexivity.
  - intros k p Hk. lia.
Qed.

(** C1, amended: two-address matching keeps no state from one line to the
    next. For a command with both addresses, each evaluating without an
    exception on the current line, the command applies exactly when
    address1 matches the current line; address2 is read only when
    address1 has none of the recognised shapes, and then the command
    applies when address2 matches or has no recognised shape either. *)
Theorem C1_two_address_matching_stateless `{HostRegex}
    (p : SedPatternSpace) (cmd : SedCommand) (m : RegexMatcher)
    (r1 r2 : option bool) :
  is_Some (addr1 cmd) -> is_Some (addr2 cmd) ->
  parse_address (addr1 cmd) (line_num p) (pattern_space p) m
    (last_line_num p) = Ok r1 ->
  parse_address (addr2 cmd) (line_num p) (pattern_space p) m
    (last_line_num p) = Ok r2 ->
  matches_command p cmd m =
    Ok (match r1 with Some b => b | None => default true r2 end).
Proof.
  intros [a1 Ha1] [a2 Ha2] H1 H2. unfold matches_command.
  rewrite H1, H2, Ha1. unfold_result.
  destruct r1 as [[]|]; [reflexivity | reflexivity |].
  destruct r2; reflexivity.
Qed.

Lemma C1_two_address_matching_stateless_witness :
  matches_command (at_line 3 "c") delete_2_4 {| extended := false |}
    = Ok false.
Proof.
  apply (C1_two_address_matching_stateless (at_line 3 "c") delete_2_4
           {| extended := false |} (Some false) (Some false));
    [eexists; reflexivity | eexists; reflexivity | reflexivity | reflexivity].
Defined.

(** ** Substitution with a numeric count *)

(** C2: what the code does with [s/a/b/2] on the line [aaa]. The compiler
    keeps the [2] in the flags text and stores no count, so the command
    replaces the first match and the line printed is [baa], not [aba].
    Were the count 2 stored, [execute_command] would hand it to
    [Pattern.sub] as the greatest number of replacements and the pattern
    space would become [bba]. *)
Theorem C2_numeric_count_not_honoured :
  PySedCore_parse_script "s/a/b/2"
    = Ok {| commands := [substitute_cmd "a" "b" "2"] |} /\
  pysed 1 "s/a/b/2" ["aaa"] SedOptions_init
    = Ok ["baa" ++ String PyStr.LF ""] /\
  (let e := {| ps := at_line 1 "aaa"; labels := ∅; output := [] |} in
   execute_command e (substitute_counted "a" "b" 2) SedOptions_init
   = Ok (true,
         with_ps e (set_pattern_space (set_substituted (ps e) true) "bba"))).
Proof. repeat split. Qed.

(** ** The label table *)

(** C3, as stated, fails on the script [p] followed by [:x]: when the
    first line is about to be processed the table is empty, so it was not
    built beforehand, and once the first cycle has run the table is still
    not the one that maps [x] to the index of its command. *)
Lemma C3_label_table_not_prebuilt :
  let script := {| commands := [print_cmd; label_cmd "x"] |} in
  PySedCore_parse_script ("p" ++ String PyStr.LF ":x") = Ok script /\
  ~ resolves script (labels (env Run_init)) /\
  exists r : Run,
    cycle 2 script SedOptions_init Run_init "a" = Ok r /\
    ~ resolves script (labels (env r)).
Proof.
  intros script. split; [reflexivity |]. split.
  - intros Hres. specialize (Hres 1%nat (label_cmd "x") eq_refl eq_refl).
    discriminate Hres.
  - eexists. split; [reflexivity |].
    intros Hres. specialize (Hres 1%nat (label_cmd "x") eq_refl eq_refl).
    vm_compute in Hres. discriminate Hres.
Qed.

(** C3, amended: the label table is empty when the run starts and is
    filled while lines are processed. One turn of the command loop enters
    the name of a label command that applies into the table and keeps
    every other entry; a command of any other kind leaves the table as it
    is; and after a branch command whose label is in the table the
    program counter is the table's entry for that label. *)
Theorem C3_label_table_filled_during_run `{HostRegex} (script : SedScript)
    (options : SedOptions) (e e' : Env) (cmd_idx next : nat)
    (cmd : SedCommand) (c : bool) :
  commands script !! cmd_idx = Some cmd ->
  step script options e cmd_idx = Ok (c, next, e') ->
  labels (env Run_init) = ∅ /\
  (cmd_type cmd <> LABEL -> labels e' = labels e) /\
  (cmd_type cmd = LABEL ->
   matches_command (ps e) cmd {| extended := extended_regex options |}
     = Ok true ->
   is_Some (labels e' !! label_of cmd) /\
   forall k : string, k <> label_of cmd -> labels e' !! k = labels e !! k) /\
  (cmd_type cmd = BRANCH ->
   forall target : nat,
     labels e' !! branch_target cmd = Some target -> next = target).
Proof.
  intros Hcmd Hstep. unfold step in Hstep. rewrite Hcmd in Hstep.
  destruct (execute_command e cmd options) as [[c0 e0]| |] eqn:Hexec;
    unfold_result; try discriminate.
  split; [reflexivity |]. split; [| split].
  - intros Hkind.
    assert (e0 = e') as <- by (repeat case_match; congruence).
    eapply execute_command_labels; eauto.
  - intros Hkind Hm.
    assert (e0 = e') as <- by (repeat case_match; congruence).
    unfold execute_command in Hexec. rewrite Hm, Hkind in Hexec.
    unfold_result. simpl in Hexec. injection Hexec as _ <-. simpl.
    unfold label_of. split.
    + rewrite lookup_insert_eq. eauto.
    + intros k Hk. rewrite lookup_insert_ne; [reflexivity | congruence].
  - intros Hkind target Htarget.
    destruct (decide (cmd_type cmd = BRANCH)); [| contradiction].
    unfold branch_target in Htarget. simpl in Hstep.
    destruct (labels e0 !! default "0" (arg_label (args cmd))) eqn:Hl;
      injection Hstep as _ Hn He; subst; congruence.
Qed.

Lemma C3_label_table_filled_during_run_witness :
  let script := {| commands := [print_cmd; label_cmd "x"] |} in
  let e := {| ps := at_line 1 "a"; labels := ∅; output := [] |} in
  labels (env Run_init) = ∅ /\
  (cmd_type (label_cmd "x") <> LABEL -> labels (with_labels e {[ "x" := 0%nat ]}) = labels e) /\
  (cmd_type (label_cmd "x") = LABEL ->
   matches_command (ps e) (label_cmd "x")
     {| extended := extended_regex SedOptions_init |} = Ok true ->
   is_Some (labels (with_labels e {[ "x" := 0%nat ]}) !! label_of (label_cmd "x")) /\
   forall k : string, k <> label_of (label_cmd "x") ->
     labels (with_labels e {[ "x" := 0%nat ]}) !! k = labels e !! k) /\
  (cmd_type (label_cmd "x") = BRANCH ->
   forall target : nat,
     labels (with_labels e {[ "x" := 0%nat ]}) !! branch_target (label_cmd "x")
       = Some target -> 2%nat = target).
Proof.
  intros script e.
  apply (C3_label_table_filled_during_run script SedOptions_init e
           (with_labels e {[ "x" := 0%nat ]}) 1 2 (label_cmd "x") true);
    reflexivity.
Defined.

(** ** Branches to labels that are not declared *)

(** C4, as stated, fails: the script made of a branch to the undeclared
    label [nowhere] runs to its end over the input line [x] and prints
    it; so does the script text [b nowhere], which compiles to a branch
    command without a label argument. *)
Lemma C4_undeclared_label_run_succeeds :
  ~ (forall (fuel : nat) (script : SedScript) (streams : list string)
       (options : SedOptions),
       has_undeclared_label script ->
       exists e : exn,
         PySedCore_process fuel streams script options = Raise e) /\
  pysed 1 "b nowhere" ["x" ++ String PyStr.LF ""] SedOptions_init
  = Ok ["x" ++ String PyStr.LF ""].
Proof.
  split; [| reflexivity].
  intros claim.
  destruct (claim 1%nat {| commands := [branch_cmd "nowhere"] |}
              ["x" ++ String PyStr.LF ""] SedOptions_init) as [e He].
  - exists (branch_cmd "nowhere"), "nowhere". simpl.
    repeat split; [tauto | tauto | discriminate |].
    intros d [<- | []]. discriminate.
  - assert (PySedCore_process 1 ["x" ++ String PyStr.LF ""]
              {| commands := [branch_cmd "nowhere"] |} SedOptions_init
            = Ok ["x" ++ String PyStr.LF ""]) as Hrun by reflexivity.
    rewrite Hrun in He. discriminate He.
Qed.

(** C4, amended: no command fails for want of a label. A branch command
    that applies and whose label is not in the label table changes nothing
    and the loop goes on with the next command. The test commands [t] and
    [T] never read the label table: whatever the table holds, they return
    according to the substituted flag alone, change nothing, and the
    program counter moves to the next command. *)
Theorem C4_unresolved_branch_is_silent `{HostRegex} (script : SedScript)
    (options : SedOptions) (e : Env) (cmd_idx : nat) (cmd : SedCommand) :
  commands script !! cmd_idx = Some cmd ->
  matches_command (ps e) cmd {| extended := extended_regex options |}
    = Ok true ->
  match cmd_type cmd with
  | BRANCH =>
      labels e !! branch_target cmd = None ->
      step script options e cmd_idx = Ok (true, S cmd_idx, e)
  | TEST =>
      step script options e cmd_idx
        = Ok (negb (substituted (ps e)), S cmd_idx, e)
  | TEST_BRANCH =>
      step script options e cmd_idx = Ok (substituted (ps e), S cmd_idx, e)
  | _ => True
  end.
Proof.
  intros Hcmd Hm.
  destruct (cmd_type cmd) eqn:Hkind; try exact I.
  - intros Hlabel. unfold branch_target in Hlabel.
    unfold step, execute_command. rewrite Hcmd, Hm, Hkind.
    unfold_result. simpl. rewrite Hlabel.
    destruct (decide (is_Some (@None nat))) as [[? ?]|]; [discriminate |].
    simpl. rewrite Hlabel. reflexivity.
  - unfold step, execute_command. rewrite Hcmd, Hm, Hkind.
    unfold_result. simpl. destruct (substituted (ps e)); reflexivity.
  - unfold step, execute_command. rewrite Hcmd, Hm, Hkind.
    unfold_result. simpl. destruct (substituted (ps e)); reflexivity.
Qed.

Lemma C4_unresolved_branch_is_silent_witness :
  let e := {| ps := set_substituted (at_line 1 "x") true;
              labels := {[ "0" := 0%nat ]}; output := [] |} in
  (labels e !! branch_target (branch_cmd "nowhere") = None ->
   step {| commands := [branch_cmd "nowhere"; test_cmd] |} SedOptions_init
     e 0
   = Ok (true, 1%nat, e)) /\
  step {| commands := [branch_cmd "nowhere"; test_cmd] |} SedOptions_init e 1
  = Ok (false, 2%nat, e).
Proof.
  intros e. split.
  - apply (C4_unresolved_branch_is_silent
             {| commands := [branch_cmd "nowhere"; test_cmd] |}
             SedOptions_init e 0 (branch_cmd "nowhere")); reflexivity.
  - apply (C4_unresolved_branch_is_silent
             {| commands := [branch_cmd "nowhere"; test_cmd] |}
             SedOptions_init e 1 test_cmd); reflexivity.
Defined.

(** ** The test command and the substituted flag *)

(** C5, as stated, fails: [t] executed with the substituted flag set
    leaves the flag set. *)
Lemma C5_test_keeps_flag :
  ~ (forall (e e' : Env) (cmd : SedCommand) (options : SedOptions)
       (c : bool),
       cmd_type cmd = TEST -> substituted (ps e) = true ->
       execute_command e cmd options = Ok (c, e') ->
       substituted (ps e') = false).
Proof.
  intros claim.
  pose (e := {| ps := set_substituted (at_line 1 "y") true; labels := ∅;
                output := [] |}).
  specialize (claim e e test_cmd SedOptions_init false eq_refl eq_refl
                eq_refl).
  discriminate claim.
Qed.

(** C5, amended: [t] executed with the substituted flag set ends the
    cycle of the current line at once; it reads no label and leaves the
    whole state, the flag included, as it is. With the flag clear it
    changes nothing and the loop goes on with the next command, so that a
    later substitution of the same cycle is still executed. *)
Theorem C5_test_ends_cycle_or_continues `{HostRegex} (script : SedScript)
    (options : SedOptions) (e : Env) (cmd_idx : nat) (cmd : SedCommand)
    (fuel : nat) :
  commands script !! cmd_idx = Some cmd ->
  cmd_type cmd = TEST ->
  matches_command (ps e) cmd {| extended := extended_regex options |}
    = Ok true ->
  step script options e cmd_idx
    = Ok (negb (substituted (ps e)), S cmd_idx, e) /\
  command_loop (S fuel) script options e true cmd_idx =
    if substituted (ps e) then Ok e
    else command_loop fuel script options e true (S cmd_idx).
Proof.
  intros Hcmd Hkind Hm.
  assert (step script options e cmd_idx
          = Ok (negb (substituted (ps e)), S cmd_idx, e)) as Hstep.
  { unfold step, execute_command. rewrite Hcmd, Hm, Hkind.
    unfold_result. simpl. destruct (substituted (ps e)); reflexivity. }
  split; [exact Hstep |].
  apply lookup_lt_Some in Hcmd. apply Nat.ltb_lt in Hcmd.
  cbn [command_loop]. rewrite Hcmd, Hstep. unfold_result. cbn [andb].
  destruct (substituted (ps e)); [| reflexivity].
  destruct fuel; reflexivity.
Qed.

Lemma C5_test_ends_cycle_or_continues_witness :
  let script :=
    {| commands := [substitute_cmd "x" "y" ""; test_cmd;
                    substitute_cmd "z" "q" ""] |} in
  let e := {| ps := at_line 1 "z"; labels := ∅; output := [] |} in
  step script SedOptions_init e 1 = Ok (true, 2%nat, e) /\
  command_loop 2 script SedOptions_init e true 1
    = command_loop 1 script SedOptions_init e true 2.
Proof.
  intros script e.
  apply (C5_test_ends_cycle_or_continues script SedOptions_init e 1
           test_cmd 1); reflexivity.
Defined.




(** ** Line numbers and the last-line address *)

(** C7, as stated, fails. Outside separate mode, over the two streams [a]
    and [b] the script [=] numbers both lines 1, where one logical input
    would number them 1 and 2; and over the stream of the two lines [a]
    and [b] the command [p] under the address [$] prints both lines, not
    the last one alone. *)
Lemma C7_numbering_and_last_line_per_line :
  separate quiet_options = false /\
  pysed 1 "=" ["a" ++ String PyStr.LF ""; "b" ++ String PyStr.LF ""]
    quiet_options
  = Ok ["1" ++ String PyStr.LF ""; "1" ++ String PyStr.LF ""] /\
  pysed 1 "$,p" ["a" ++ String PyStr.LF "b" ++ String PyStr.LF ""]
    quiet_options
  = Ok ["a" ++ String PyStr.LF ""; "b" ++ String PyStr.LF ""].
Proof. repeat split. Qed.

(** C7, amended: in every mode, separate or not, the line number restarts
    at 1 with each input stream. It is read off the script [=], whose run
    prints for each stream the numbers 1, 2, ... of its own lines (each
    followed by the line itself unless the quiet option is set). *)
Theorem C7_numbering_restarts_with_each_stream `{HostRegex} (fuel : nat)
    (streams : list string) (options : SedOptions) :
  PySedCore_process (S fuel) streams {| commands := [equal_cmd] |} options
  = Ok (flat_map
          (fun stream => numbered (quiet options) 1 (records options stream))
          streams).
Proof.
  rewrite (process_printing_script (S fuel) _ options
             (fun p => [pretty (line_num p) ++ String PyStr.LF ""])
             (equal_loop fuel options)).
  f_equal. generalize SedPatternSpace_init.
  induction streams as [| stream streams IH]; intros q; simpl;
    [reflexivity |].
  rewrite IH, equal_cycles_lines. reflexivity.
Qed.

(** ** Deleting under two addresses *)

(** C8, as stated, fails. The script text [2,4d] does not compile: the
    text after its only comma, [4d], is taken for the command and [4] is
    no command letter. And the delete command under the addresses 2 and
    4, which is what the text [2,4,d] compiles to, yields five lines over
    a five-line input, an empty one standing for line 2. *)
Lemma C8_delete_2_4_output :
  pysed 1 "2,4d" [five_lines] SedOptions_init = Raise ValueError /\
  PySedCore_parse_script "2,4,d" = Ok {| commands := [delete_2_4] |} /\
  PySedCore_process 1 [five_lines] {| commands := [delete_2_4] |}
    SedOptions_init
  = Ok ["1" ++ String PyStr.LF ""; String PyStr.LF "";
        "3" ++ String PyStr.LF ""; "4" ++ String PyStr.LF "";
        "5" ++ String PyStr.LF ""].
Proof. repeat split. Qed.

(** C8, amended: the delete command under the addresses 2 and 4, run
    over an input of five lines without the quiet option, yields five
    lines: the first, an empty line, then the third, fourth and fifth, in
    that order. Only line 2, the line address1 matches, has its pattern
    space cleared, and the emptied pattern space is still printed at the
    end of its cycle. *)
Theorem C8_delete_clears_line_2_only `{HostRegex} (fuel : nat)
    (stream l1 l2 l3 l4 l5 : string) (options : SedOptions) :
  quiet options = false ->
  records options stream = [l1; l2; l3; l4; l5] ->
  PySedCore_process (S fuel) [stream] {| commands := [delete_2_4] |} options
  = Ok [l1 ++ String PyStr.LF ""; String PyStr.LF "";
        l3 ++ String PyStr.LF ""; l4 ++ String PyStr.LF "";
        l5 ++ String PyStr.LF ""].
Proof.
  intros Hq Hrecs.
  unfold PySedCore_process, process_streams, process_stream.
  rewrite Hrecs. unfold cycles, cycle. rewrite Hq.
  destruct fuel, (unbuffered options), (separate options); reflexivity.
Qed.

Lemma C8_delete_clears_line_2_only_witness :
  PySedCore_process 1 [five_lines] {| commands := [delete_2_4] |}
    SedOptions_init
  = Ok ["1" ++ String PyStr.LF ""; String PyStr.LF "";
        "3" ++ String PyStr.LF ""; "4" ++ String PyStr.LF "";
        "5" ++ String PyStr.LF ""].
Proof.
  apply (C8_delete_clears_line_2_only 0 five_lines "1" "2" "3" "4" "5"
           SedOptions_init); reflexivity.
Defined.

(** ** Quiet mode and a lone [p] *)

(** C9: with the quiet option (and without null-data mode) the script [p]
    compiles to a single print command and the run yields, for each
    stream in turn, each line read, once, without its newline and with a
    newline put back; when every stream is empty or ends with a newline
    the output, joined, is the input, joined. *)
Theorem C9_quiet_print_reproduces_input `{HostRegex} (fuel : nat)
    (streams : list string) (options : SedOptions) :
  quiet options = true -> null_data options = false ->
  exists out : list string,
    pysed (S fuel) "p" streams options = Ok out /\
    out = flat_map
            (fun stream =>
               map (fun l =>
                      PyStr.rstrip_char PyStr.LF l ++ String PyStr.LF "")
                   (PyStr.readlines stream))
            streams /\
    (forallb newline_terminated streams = true -> join out = join streams).
Proof.
  intros Hq Hnull. eexists. split; [| split; [reflexivity |]].
  - unfold pysed.
    change (PySedCore_parse_script "p")
      with (Ok {| commands := [print_cmd] |}).
    unfold_result.
    rewrite (process_printing_script (S fuel) _ options
               (fun p => [pattern_space p ++ String PyStr.LF ""])
               (print_loop fuel options)).
    f_equal. generalize SedPatternSpace_init.
    induction streams as [| stream streams IH]; intros p; simpl;
      [reflexivity |].
    rewrite IH, (print_cycles_lines _ _ _ Hq).
    unfold records. rewrite Hnull, map_map. reflexivity.
  - induction streams as [| stream streams IH]; simpl; [reflexivity |].
    intros Hall. apply andb_prop in Hall as [Hs Hall].
    rewrite join_app, (IH Hall). f_equal.
    unfold PyStr.readlines.
    rewrite readlines_from_join; auto.
Qed.

Lemma C9_quiet_print_reproduces_input_witness :
  exists out : list string,
    pysed 1 "p" ["one" ++ String PyStr.LF "two"; "three"] quiet_options
      = Ok out /\
    out = ["one" ++ String PyStr.LF ""; "two" ++ String PyStr.LF "";
           "three" ++ String PyStr.LF ""] /\
    (forallb newline_terminated ["one" ++ String PyStr.LF "two"; "three"]
       = true ->
     join out = join ["one" ++ String PyStr.LF "two"; "three"]).
Proof.
  apply (C9_quiet_print_reproduces_input 0
           ["one" ++ String PyStr.LF "two"; "three"] quiet_options);
    reflexivity.
Defined.

(** ** Commands that change nothing *)

(** C10: a command of kind [N], [P], [Q], [r], [R], [w], [W], [y], [c] or
    [l] that applies leaves the pattern space, the hold space, the
    substituted flag, the line counters, the label table and the output
    as they are, returns "continue", and the loop goes on with the next
    command. *)
Theorem C10_unhandled_kinds_are_noops `{HostRegex} (script : SedScript)
    (options : SedOptions) (e : Env) (cmd_idx : nat) (cmd : SedCommand) :
  commands script !! cmd_idx = Some cmd ->
  In (cmd_type cmd)
     [NEXT_READ; PRINT_FIRST_LINE; QUIT_SILENT; READ_FILE; READ_FILE_SILENT;
      WRITE; WRITE_FIRST_LINE; TRANSLIT; CHANGE; SWAPCASE] ->
  matches_command (ps e) cmd {| extended := extended_regex options |}
    = Ok true ->
  execute_command e cmd options = Ok (true, e) /\
  step script options e cmd_idx = Ok (true, S cmd_idx, e).
Proof.
  intros Hcmd Hkind Hm.
  assert (execute_command e cmd options = Ok (true, e)) as Hexec.
  { unfold execute_command. rewrite Hm. unfold_result. simpl.
    destruct (cmd_type cmd); try reflexivity;
      exfalso; simpl in Hkind; intuition discriminate. }
  split; [exact Hexec |].
  unfold step. rewrite Hcmd, Hexec. unfold_result.
  destruct (decide (cmd_type cmd = BRANCH)) as [Hb|]; [| reflexivity].
  rewrite Hb in Hkind. simpl in Hkind. intuition discriminate.
Qed.

Lemma C10_unhandled_kinds_are_noops_witness :
  let e := {| ps := at_line 1 "abc"; labels := ∅; output := ["x"] |} in
  execute_command e transliterate_cmd SedOptions_init = Ok (true, e) /\
  step {| commands := [transliterate_cmd] |} SedOptions_init e 0
    = Ok (true, 1%nat, e).
Proof.
  intros e.
  apply (C10_unhandled_kinds_are_noops {| commands := [transliterate_cmd] |}
           SedOptions_init e 0 transliterate_cmd);
    [reflexivity | simpl; tauto | reflexivity].
Defined.

(** * Further properties of the script compiler *)

(** ** Characters *)

Lemma SedCommandType_of_char_label (c : ascii) :
  SedCommandType_of_char c = Ok LABEL -> c = ":"%char.
Proof.
  destruct c as [[] [] [] [] [] [] [] []]; simpl; intros Hc;
    solve [discriminate Hc | reflexivity].
Qed.

Lemma SedCommandType_of_char_decimal (c : ascii) :
  PyStr.is_decimal c = true -> SedCommandType_of_char c = Raise ValueError.
Proof.
  destruct c as [[] [] [] [] [] [] [] []]; vm_compute; intros Hc;
    solve [discriminate Hc | reflexivity].
Qed.

Lemma startswith_char (c d : ascii) (s : string) :
  PyStr.startswith (String c "") (String d s) = true <-> c = d.
Proof.
  unfold PyStr.startswith. simpl.
  destruct (ascii_dec c d) as [-> | Hne].
  - split; [reflexivity |]. intros _. destruct s; reflexivity.
  - split; [discriminate | contradiction].
Qed.

(** ** What a compiled command holds *)

Lemma parse_addresses_second (line cmd_str : string)
    (a1 a2 : option string) :
  parse_addresses line = Ok (a1, a2, cmd_str) -> is_Some a2 -> is_Some a1.
Proof.
  unfold parse_addresses. intros Hp [x ->].
  repeat case_match; simplify_eq; eauto.
Qed.

(** The arguments and addresses [parse_line] can produce. *)
Lemma parse_line_shape (raw : string) (cmd : SedCommand) :
  parse_line raw = Ok cmd ->
  arg_text (args cmd) = None /\
  arg_count (args cmd) = None /\
  (is_Some (arg_label (args cmd)) <-> cmd_type cmd = LABEL) /\
  (is_Some (addr2 cmd) -> is_Some (addr1 cmd)) /\
  (forall n : Z, addr1 cmd <> Some (AddrInt n)) /\
  (forall n : Z, addr2 cmd <> Some (AddrInt n)).
Proof.
  unfold parse_line. intros Hp.
  destruct (String.eqb (PyStr.rstrip raw) "" ||
            PyStr.startswith "#" (PyStr.rstrip raw)).
  { injection Hp as <-. simpl.
    repeat split; try discriminate; intros [? ?]; discriminate. }
  destruct (parse_addresses (PyStr.rstrip raw)) as [[[a1 a2] cmd_str]| |]
    eqn:Haddr; unfold_result; try discriminate.
  assert (is_Some (AddrStr <$> a2) -> is_Some (AddrStr <$> a1)) as Hsecond.
  { intros [x Hx]. destruct a2 as [t|]; [| discriminate].
    destruct (parse_addresses_second _ _ _ _ Haddr) as [u ->]; eauto. }
  assert (forall (a : option string) (n : Z),
            AddrStr <$> a <> Some (AddrInt n)) as Hstr.
  { intros [t|] n; discriminate. }
  destruct (PyStr.startswith ":" cmd_str) eqn:Hcolon.
  { injection Hp as <-. simpl.
    repeat split; eauto. }
  destruct (PyStr.startswith "s" cmd_str).
  { injection Hp as <-. unfold parse_substitute.
    destruct (match_substitute cmd_str) as [[[pattern repl] flags]|]; simpl;
      repeat split; eauto; try discriminate; intros [? ?]; discriminate. }
  destruct cmd_str as [| c tail]; [discriminate |].
  destruct (SedCommandType_of_char c) as [t| |] eqn:Ht; try discriminate.
  injection Hp as <-. simpl.
  repeat split; eauto; try (intros [? ?]; discriminate).
  intros ->. apply SedCommandType_of_char_label in Ht as ->.
  assert (PyStr.startswith ":" (String ":" tail) = true) as Hyes
    by (apply startswith_char; reflexivity).
  congruence.
Qed.

(** X1: A compiled insert command has no text to insert: whenever it
    applies, [execute_command] raises [KeyError]. *)
Theorem X1_compiled_insert_raises `{HostRegex} (raw : string)
    (cmd : SedCommand) (e : Env) (options : SedOptions) :
  parse_line raw = Ok cmd ->
  cmd_type cmd = INSERT ->
  matches_command (ps e) cmd {| extended := extended_regex options |}
    = Ok true ->
  execute_command e cmd options = Raise KeyError.
Proof.
  intros Hp Hkind Hm.
  destruct (parse_line_shape raw cmd Hp) as (Htext & _).
  unfold execute_command. rewrite Hm, Hkind, Htext. reflexivity.
Qed.

Lemma X1_compiled_insert_raises_witness :
  execute_command
    {| ps := at_line 1 "x"; labels := ∅; output := [] |}
    {| addr1 := None; addr2 := None; cmd_type := INSERT; args := no_args |}
    SedOptions_init
  = Raise KeyError.
Proof.
  apply (X1_compiled_insert_raises "i hello"); reflexivity.
Defined.

(** X2: A compiled substitute command never holds a count: when it applies
    and has its pattern and replacement, it asks [Pattern.sub] for every
    match if its flags text holds a [g] and for the first match only
    otherwise, whatever digits the flags text holds; the substituted flag
    records whether the pattern space changed. *)
Theorem X2_compiled_substitute_all_or_first `{HostRegex} (raw : string)
    (cmd : SedCommand) (e : Env) (options : SedOptions)
    (pattern repl flags : string) (re : Pattern) (res : string) :
  parse_line raw = Ok cmd ->
  cmd_type cmd = SUBSTITUTE ->
  arg_pattern (args cmd) = Some pattern ->
  arg_replacement (args cmd) = Some repl ->
  arg_flags (args cmd) = Some flags ->
  matches_command (ps e) cmd {| extended := extended_regex options |}
    = Ok true ->
  re_compile (extended_regex options) pattern = Ok re ->
  Pattern_sub re repl (pattern_space (ps e))
    (if PyStr.contains "g" flags then 0 else 1) = Ok res ->
  execute_command e cmd options
  = Ok (true,
        with_ps e
          (set_pattern_space
             (set_substituted (ps e)
                (negb (String.eqb res (pattern_space (ps e)))))
             res)).
Proof.
  intros Hp Hkind Hpat Hrepl Hflags Hm Hre Hsub.
  destruct (parse_line_shape raw cmd Hp) as (_ & Hcount & _).
  unfold execute_command, RegexMatcher_compile.
  rewrite Hm, Hkind, Hpat, Hrepl, Hflags, Hcount. unfold_result. simpl.
  rewrite Hre. destruct (PyStr.contains "g" flags); rewrite Hsub; reflexivity.
Qed.

Lemma X2_compiled_substitute_all_or_first_witness :
  let e := {| ps := at_line 1 "aaa"; labels := ∅; output := [] |} in
  execute_command e (substitute_cmd "a" "b" "3g") SedOptions_init
  = Ok (true,
        with_ps e (set_pattern_space (set_substituted (ps e) true) "bbb")).
Proof.
  intros e.
  apply (X2_compiled_substitute_all_or_first (H := literal_regex)
           "s/a/b/3g" (substitute_cmd "a" "b" "3g") e SedOptions_init
           "a" "b" "3g" ("a" : @Pattern literal_regex) "bbb"); reflexivity.
Defined.

(** X3: The label written after [b], [t] or [T] in a script text is dropped by
    the compiler: a compiled branch command always looks up the label
    named [0]. *)
Theorem X3_compiled_branch_targets_zero (raw : string) (cmd : SedCommand) :
  parse_line raw = Ok cmd ->
  In (cmd_type cmd) [BRANCH; TEST; TEST_BRANCH] ->
  arg_label (args cmd) = None /\ branch_target cmd = "0".
Proof.
  intros Hp Hkind.
  destruct (parse_line_shape raw cmd Hp) as (_ & _ & Hlabel & _).
  assert (arg_label (args cmd) = None) as Hnone.
  { destruct (arg_label (args cmd)) eqn:Hl; [| reflexivity].
    assert (cmd_type cmd = LABEL) as Hk by (apply Hlabel; eauto).
    rewrite Hk in Hkind. simpl in Hkind. intuition discriminate. }
  unfold branch_target. rewrite Hnone. auto.
Qed.

Lemma X3_compiled_branch_targets_zero_witness :
  arg_label (args (branch_cmd_compiled)) = None /\
  branch_target branch_cmd_compiled = "0".
Proof.
  apply (X3_compiled_branch_targets_zero "b end"); [reflexivity |].
  simpl; tauto.
Defined.

(** ** The substitute command text *)

Lemma string_app_cons (c : ascii) (a b : string) :
  String c a ++ b = String c (a ++ b).
Proof. reflexivity. Qed.

Lemma span_until_slash (p rest : string) :
  PyStr.contains "/" p = false ->
  span (fun c => negb (Ascii.eqb c "/"%char)) (p ++ String "/" rest)
  = (p, String "/" rest).
Proof.
  induction p as [| c p IH]; intros Hp; [reflexivity |].
  cbn [PyStr.contains] in Hp. apply orb_false_iff in Hp as [Hc Hp].
  rewrite string_app_cons. cbn [span]. rewrite Ascii.eqb_sym, Hc. cbn [negb].
  rewrite (IH Hp). reflexivity.
Qed.

(** X4: [parse_substitute] keeps the three fields of a text [s/P/R/F] whose
    pattern [P] and replacement [R] are not empty and hold no slash; the
    flags are the text [F] up to its first newline. *)
Theorem X4_parse_substitute_fields (a1 a2 : option address)
    (pattern repl flags : string) :
  pattern <> "" -> repl <> "" ->
  PyStr.contains "/" pattern = false ->
  PyStr.contains "/" repl = false ->
  parse_substitute a1 a2
    ("s/" ++ pattern ++ String "/" (repl ++ String "/" flags))
  = {| addr1 := a1; addr2 := a2; cmd_type := SUBSTITUTE;
       args := {| arg_label := None; arg_text := None;
                  arg_pattern := Some pattern;
                  arg_replacement := Some repl;
                  arg_flags := Some (before_newline flags);
                  arg_count := None |} |}.
Proof.
  intros Hp Hr Hps Hrs. unfold parse_substitute, match_substitute.
  change ("s/" ++ pattern ++ String "/" (repl ++ String "/" flags))
    with (String "s" (String "/"
            (pattern ++ String "/" (repl ++ String "/" flags)))).
  cbv iota beta.
  rewrite (span_until_slash pattern _ Hps).
  destruct pattern as [| c pattern]; [contradiction |].
  rewrite (span_until_slash repl _ Hrs).
  destruct repl as [| d repl]; [contradiction |].
  reflexivity.
Qed.

Lemma X4_parse_substitute_fields_witness :
  parse_substitute None None "s/colou?r/color/g"
  = {| addr1 := None; addr2 := None; cmd_type := SUBSTITUTE;
       args := {| arg_label := None; arg_text := None;
                  arg_pattern := Some "colou?r";
                  arg_replacement := Some "color";
                  arg_flags := Some "g"; arg_count := None |} |}.
Proof.
  apply (X4_parse_substitute_fields None None "colou?r" "color" "g");
    [discriminate | discriminate | reflexivity | reflexivity].
Defined.

(** X5: A substitute text with an empty replacement, [s/P//F], is not
    recognised: it compiles to a substitute command without arguments,
    which raises [KeyError] whenever it applies. *)
Theorem X5_empty_replacement_raises `{HostRegex} (a1 a2 : option address)
    (pattern rest : string) (e : Env) (options : SedOptions) :
  PyStr.contains "/" pattern = false ->
  matches_command (ps e)
    (parse_substitute a1 a2 ("s/" ++ pattern ++ String "/" (String "/" rest)))
    {| extended := extended_regex options |} = Ok true ->
  parse_substitute a1 a2 ("s/" ++ pattern ++ String "/" (String "/" rest))
  = {| addr1 := a1; addr2 := a2; cmd_type := SUBSTITUTE; args := no_args |}
  /\
  execute_command e
    (parse_substitute a1 a2 ("s/" ++ pattern ++ String "/" (String "/" rest)))
    options
  = Raise KeyError.
Proof.
  intros Hps.
  assert (parse_substitute a1 a2
            ("s/" ++ pattern ++ String "/" (String "/" rest))
          = {| addr1 := a1; addr2 := a2; cmd_type := SUBSTITUTE;
               args := no_args |}) as ->.
  { unfold parse_substitute, match_substitute.
    change ("s/" ++ pattern ++ String "/" (String "/" rest))
      with (String "s" (String "/" (pattern ++ String "/" (String "/" rest)))).
    cbv iota beta. rewrite (span_until_slash pattern _ Hps).
    destruct pattern; reflexivity. }
  intros Hm. split; [reflexivity |].
  unfold execute_command. rewrite Hm. reflexivity.
Qed.

Lemma X5_empty_replacement_raises_witness :
  parse_substitute None None "s/x//g"
  = {| addr1 := None; addr2 := None; cmd_type := SUBSTITUTE;
       args := no_args |} /\
  execute_command {| ps := at_line 1 "x"; labels := ∅; output := [] |}
    (parse_substitute None None "s/x//g") SedOptions_init
  = Raise KeyError.
Proof.
  apply (X5_empty_replacement_raises None None "x" "g"); reflexivity.
Defined.

(** ** Script lines and commands *)

Lemma parse_lines_each (lines : list string) (cmds : list SedCommand) :
  parse_lines lines = Ok cmds ->
  Forall2 (fun raw cmd => parse_line raw = Ok cmd) lines cmds.
Proof.
  revert cmds. induction lines as [| raw lines IH]; simpl; intros cmds Hp.
  - injection Hp as <-. constructor.
  - destruct (parse_line raw) as [cmd| |] eqn:Hraw; unfold_result;
      try discriminate.
    destruct (parse_lines lines) as [rest| |]; try discriminate.
    injection Hp as <-. constructor; auto.
Qed.

(** X6: The compiled script has one command for each line of the script
    text, in the same order, blank lines and comments included: the
    command at an index is what [parse_line] makes of the line at that
    index. *)
Theorem X6_one_command_per_script_line (content : string)
    (script : SedScript) :
  PySedCore_parse_script content = Ok script ->
  Forall2 (fun raw cmd => parse_line raw = Ok cmd)
    (PyStr.split PyStr.LF content) (commands script) /\
  length (commands script) = length (PyStr.split PyStr.LF content).
Proof.
  unfold PySedCore_parse_script. intros Hp.
  destruct (parse_lines (PyStr.split PyStr.LF content)) as [cmds| |] eqn:Hl;
    unfold_result; try discriminate.
  injection Hp as <-. simpl.
  pose proof (parse_lines_each _ _ Hl) as HF.
  split; [exact HF |]. symmetry. eapply Forall2_length; eauto.
Qed.

Lemma X6_one_command_per_script_line_witness :
  let script :=
    {| commands := [{| addr1 := None; addr2 := None; cmd_type := COMMENT;
                       args := no_args |};
                    {| addr1 := None; addr2 := None; cmd_type := COMMENT;
                       args := no_args |};
                    print_cmd] |} in
  let content := "# header" ++ String PyStr.LF (String PyStr.LF "p") in
  Forall2 (fun raw cmd => parse_line raw = Ok cmd)
    (PyStr.split PyStr.LF content) (commands script) /\
  length (commands script) = length (PyStr.split PyStr.LF content).
Proof.
  intros script content.
  apply (X6_one_command_per_script_line content script). reflexivity.
Defined.

(** X7: Compilation stops at the first line that does not compile, with the
    exception that line raises. *)
Theorem X7_first_bad_line_fails_script (content : string)
    (before after : list string) (raw : string) (x : exn) :
  PyStr.split PyStr.LF content = (before ++ raw :: after)%list ->
  Forall (fun r => exists cmd, parse_line r = Ok cmd) before ->
  parse_line raw = Raise x ->
  PySedCore_parse_script content = Raise x.
Proof.
  intros Hsplit Hbefore Hraw. unfold PySedCore_parse_script.
  rewrite Hsplit. clear Hsplit.
  induction Hbefore as [| r before [cmd Hr] _ IH]; simpl.
  - rewrite Hraw. reflexivity.
  - rewrite Hr. unfold_result.
    destruct (parse_lines (before ++ raw :: after)) as [cmds| |];
      simpl in *; congruence.
Qed.

Lemma X7_first_bad_line_fails_script_witness :
  PySedCore_parse_script ("p" ++ String PyStr.LF ("5d" ++ String PyStr.LF "k"))
  = Raise IndexError.
Proof.
  apply (X7_first_bad_line_fails_script _ ["p"] ["k"] "5d");
    [reflexivity | | reflexivity].
  constructor; [eexists; reflexivity | constructor].
Defined.

(** ** Addresses written before a command *)

Ltac by_character c :=
  destruct c as [[] [] [] [] [] [] [] []]; vm_compute;
  repeat split; intros; solve [discriminate | reflexivity | congruence].

Lemma lower_character (c : ascii) :
  PyStr.is_lower c = true ->
  PyStr.is_space c = false /\ PyStr.is_decimal c = false /\
  Ascii.eqb "," c = false.
Proof. by_character c. Qed.

Lemma decimal_character (c : ascii) :
  PyStr.is_decimal c = true ->
  PyStr.is_space c = false /\ Ascii.eqb "," c = false /\
  Ascii.eqb "#" c = false /\ Ascii.eqb ":" c = false /\
  Ascii.eqb "s" c = false /\
  PyStr.contains c "0123456789/$" = true.
Proof. by_character c. Qed.

Lemma all_decimal_no_comma (s : string) :
  all_decimal s = true -> PyStr.contains "," s = false.
Proof.
  induction s as [| c s IH]; [reflexivity |].
  cbn [all_decimal PyStr.contains]. intros Hs.
  apply andb_prop in Hs as [Hc Hs].
  destruct (decimal_character c Hc) as (_ & -> & _). auto.
Qed.

Lemma split_once_none (c : ascii) (s : string) :
  PyStr.contains c s = false -> PyStr.split_once c s = None.
Proof.
  induction s as [| d s IH]; [reflexivity |].
  cbn [PyStr.contains PyStr.split_once]. intros Hs.
  apply orb_false_iff in Hs as [-> Hs]. now rewrite (IH Hs).
Qed.

Lemma split_once_first (c : ascii) (a b : string) :
  PyStr.contains c a = false ->
  PyStr.split_once c (a ++ String c b) = Some (a, b).
Proof.
  induction a as [| d a IH]; intros Ha.
  - cbn [String.append]. change ("" ++ String c b) with (String c b).
    cbn [PyStr.split_once]. now rewrite Ascii.eqb_refl.
  - cbn [PyStr.contains] in Ha. apply orb_false_iff in Ha as [Hd Ha].
    rewrite string_app_cons. cbn [PyStr.split_once].
    now rewrite Hd, (IH Ha).
Qed.

Lemma rstrip_by_cons (p : ascii -> bool) (d : ascii) (t : string) :
  p d = false ->
  PyStr.rstrip_by p (String d t) = String d (PyStr.rstrip_by p t).
Proof.
  intros Hd. cbn [PyStr.rstrip_by]. rewrite Hd.
  destruct (PyStr.rstrip_by p t); reflexivity.
Qed.

Lemma rstrip_by_app (p : ascii -> bool) (s u : string) :
  PyStr.rstrip_by p u <> "" ->
  PyStr.rstrip_by p (s ++ u) = s ++ PyStr.rstrip_by p u.
Proof.
  intros Hu. induction s as [| c s IH]; [reflexivity |].
  rewrite !string_app_cons. cbn [PyStr.rstrip_by]. rewrite IH.
  destruct s; [| reflexivity].
  change ("" ++ PyStr.rstrip_by p u) with (PyStr.rstrip_by p u).
  destruct (PyStr.rstrip_by p u); [contradiction | reflexivity].
Qed.

Lemma rstrip_by_contains (p : ascii -> bool) (c : ascii) (t : string) :
  PyStr.contains c t = false ->
  PyStr.contains c (PyStr.rstrip_by p t) = false.
Proof.
  induction t as [| d t IH]; [reflexivity |].
  cbn [PyStr.contains PyStr.rstrip_by]. intros Ht.
  apply orb_false_iff in Ht as [Hd Ht]. specialize (IH Ht).
  destruct (PyStr.rstrip_by p t) as [| x r].
  - destruct (p d); [reflexivity |].
    cbn [PyStr.contains]. now rewrite Hd.
  - cbn [PyStr.contains] in *. now rewrite Hd, IH.
Qed.

Lemma span_all_decimal (a : string) (c : ascii) (tail : string) :
  all_decimal a = true -> PyStr.is_decimal c = false ->
  span PyStr.is_decimal (a ++ String c tail) = (a, String c tail).
Proof.
  intros Ha Hc. induction a as [| x a IH].
  - change ("" ++ String c tail) with (String c tail).
    cbn [span]. now rewrite Hc.
  - cbn [all_decimal] in Ha. apply andb_prop in Ha as [Hx Ha].
    rewrite string_app_cons. cbn [span]. now rewrite Hx, (IH Ha).
Qed.

Lemma match_address_decimal (x : ascii) (s : string) :
  PyStr.is_decimal x = true ->
  match_address (String x s)
  = match span PyStr.is_decimal (String x s) with
    | ("", _) => None
    | (digits, rest) => Some (digits, rest)
    end.
Proof.
  destruct x as [[] [] [] [] [] [] [] []]; intros Hx;
    solve [discriminate Hx | reflexivity].
Qed.

(** X8: An address, [$] or a line number, written directly before a
    lower-case command letter takes the letter with it: the command text
    left is what follows the letter. With nothing after the letter, as in
    [5d] or [$p], the line does not compile and [IndexError] is raised. *)
Theorem X8_address_takes_command_letter (a : string) (c : ascii)
    (tail : string) :
  a = "$" \/ (a <> "" /\ all_decimal a = true) ->
  PyStr.is_lower c = true ->
  PyStr.contains "," tail = false ->
  parse_addresses (a ++ String c tail) = Ok (Some a, None, PyStr.strip tail)
  /\ parse_line (a ++ String c "") = Raise IndexError.
Proof.
  intros Ha Hc Htail.
  destruct (lower_character c Hc) as (Hspace & Hdec & Hcomma).
  assert (forall t : string, PyStr.contains "," t = false ->
            parse_addresses (a ++ String c t)
            = Ok (Some a, None, PyStr.strip t)) as Haddr.
  { intros t Ht. unfold parse_addresses.
    rewrite split_once_none.
    2:{ rewrite contains_app. cbn [PyStr.contains]. rewrite Hcomma, Ht.
        destruct Ha as [-> | [_ Ha]]; [reflexivity |].
        now rewrite (all_decimal_no_comma a Ha). }
    unfold match_address_command.
    destruct Ha as [-> | [Hne Ha]].
    - change ("$" ++ String c t) with (String "$" (String c t)).
      cbn [PyStr.contains match_address PyStr.lstrip_by].
      change (Ascii.eqb "$" "0") with false.
      cbn. rewrite Hspace, Hc. reflexivity.
    - destruct a as [| x a]; [contradiction |].
      pose proof Ha as Hall.
      cbn [all_decimal] in Ha. apply andb_prop in Ha as [Hx Ha].
      destruct (decimal_character x Hx) as (_ & _ & _ & _ & _ & Hin).
      rewrite string_app_cons, Hin, <- string_app_cons.
      rewrite string_app_cons at 1.
      rewrite (match_address_decimal x _ Hx), <- string_app_cons.
      rewrite (span_all_decimal _ c t Hall Hdec).
      cbn [PyStr.lstrip_by]. rewrite Hspace, Hc. reflexivity. }
  split; [apply Haddr, Htail |].
  unfold parse_line.
  assert (PyStr.rstrip (a ++ String c "") = a ++ String c "") as ->.
  { unfold PyStr.rstrip. rewrite rstrip_by_app;
      rewrite (rstrip_by_cons _ c "" Hspace); [reflexivity | discriminate]. }
  assert (String.eqb (a ++ String c "") "" ||
          PyStr.startswith "#" (a ++ String c "") = false) as ->.
  { destruct Ha as [-> | [Hne Ha]]; [reflexivity |].
    destruct a as [| x a]; [contradiction |].
    cbn [all_decimal] in Ha. apply andb_prop in Ha as [Hx _].
    destruct (decimal_character x Hx) as (_ & _ & Hhash & _).
    rewrite string_app_cons. cbn [String.eqb orb].
    destruct (PyStr.startswith "#" (String x (a ++ String c ""))) eqn:Hs;
      [| reflexivity].
    apply startswith_char in Hs as <-. discriminate Hhash. }
  rewrite (Haddr "" eq_refl). reflexivity.
Qed.

Lemma X8_address_takes_command_letter_witness :
  parse_addresses "12dp" = Ok (Some "12", None, "p") /\
  parse_line "12d" = Raise IndexError.
Proof.
  apply (X8_address_takes_command_letter "12" "d" "p");
    [right; split; [discriminate | reflexivity] | reflexivity | reflexivity].
Defined.

(** X9: A script line of the form [N,Mcmd], a line number, one comma, then a
    second line number and a command, does not compile: all the text
    after the comma is taken for the command, its first character is a
    digit, and [ValueError] is raised. *)
Theorem X9_two_address_text_rejected (n1 : string) (d : ascii)
    (rest : string) :
  all_decimal n1 = true ->
  PyStr.is_decimal d = true ->
  PyStr.contains "," rest = false ->
  parse_line (n1 ++ String "," (String d rest)) = Raise ValueError.
Proof.
  intros Hn Hd Hrest.
  destruct (decimal_character d Hd) as (Hspace & Hcomma & _ & Hcolon & Hs & _).
  unfold parse_line.
  assert (PyStr.rstrip (n1 ++ String "," (String d rest))
          = n1 ++ String "," (String d (PyStr.rstrip rest))) as ->.
  { unfold PyStr.rstrip.
    rewrite rstrip_by_app;
      rewrite (rstrip_by_cons _ "," _ eq_refl), (rstrip_by_cons _ d _ Hspace);
      [reflexivity | discriminate]. }
  set (rest' := PyStr.rstrip rest).
  assert (PyStr.contains "," rest' = false) as Hrest'
    by apply rstrip_by_contains, Hrest.
  assert (String.eqb (n1 ++ String "," (String d rest')) "" ||
          PyStr.startswith "#" (n1 ++ String "," (String d rest')) = false)
    as ->.
  { destruct n1 as [| x n1]; [reflexivity |].
    cbn [all_decimal] in Hn. apply andb_prop in Hn as [Hx _].
    destruct (decimal_character x Hx) as (_ & _ & Hhash & _).
    rewrite string_app_cons. cbn [String.eqb orb].
    destruct (PyStr.startswith "#"
                (String x (n1 ++ String "," (String d rest'))))
      eqn:Hstart; [| reflexivity].
    apply startswith_char in Hstart as <-. discriminate Hhash. }
  unfold parse_addresses.
  rewrite (split_once_first "," n1 _ (all_decimal_no_comma n1 Hn)).
  rewrite split_once_none
    by (cbn [PyStr.contains]; now rewrite Hcomma, Hrest').
  unfold_result. cbv iota beta.
  assert (PyStr.strip (String d rest') = String d (PyStr.rstrip rest')) as ->.
  { unfold PyStr.strip, PyStr.rstrip.
    rewrite (rstrip_by_cons _ d _ Hspace). cbn [PyStr.lstrip_by].
    now rewrite Hspace. }
  destruct (PyStr.startswith ":" (String d (PyStr.rstrip rest'))) eqn:H1.
  { apply startswith_char in H1 as <-. discriminate Hcolon. }
  destruct (PyStr.startswith "s" (String d (PyStr.rstrip rest'))) eqn:H2.
  { apply startswith_char in H2 as <-. discriminate Hs. }
  rewrite (SedCommandType_of_char_decimal d Hd). reflexivity.
Qed.

Lemma X9_two_address_text_rejected_witness :
  parse_line "10,20p" = Raise ValueError.
Proof.
  apply (X9_two_address_text_rejected "10" "2" "0p"); reflexivity.
Defined.

(** * Further properties of the execution engine *)

(** ** Invariants of the command loop and of the run *)

Lemma step_executes `{HostRegex} (script : SedScript) (options : SedOptions)
    (e e' : Env) (i next : nat) (c : bool) :
  step script options e i = Ok (c, next, e') ->
  exists cmd : SedCommand,
    commands script !! i = Some cmd /\
    execute_command e cmd options = Ok (c, e') /\
    (cmd_type cmd <> BRANCH -> next = S i).
Proof.
  unfold step. intros Hstep.
  destruct (commands script !! i) as [cmd|] eqn:Hcmd; [| discriminate].
  destruct (execute_command e cmd options) as [[c0 e0]| |] eqn:Hexec;
    unfold_result; try discriminate.
  exists cmd. split; [reflexivity |].
  destruct (decide (cmd_type cmd = BRANCH)) as [Hb | Hb].
  - destruct (labels e0 !! default "0" (arg_label (args cmd)));
      injection Hstep as <- <- <-; split; auto; contradiction.
  - injection Hstep as <- <- <-. auto.
Qed.

Section Invariants.
Context `{HostRegex}.
Variables (script : SedScript) (options : SedOptions).

(** A property of the objects [execute_command] works on that every
    command of the script keeps. *)
Variable P : Env -> Prop.
Hypothesis execute_keeps : forall (e e' : Env) (cmd : SedCommand) (c : bool),
  P e -> In cmd (commands script) ->
  execute_command e cmd options = Ok (c, e') -> P e'.

Lemma command_loop_keeps (fuel : nat) (e e' : Env) (c : bool) (i : nat) :
  P e -> command_loop fuel script options e c i = Ok e' -> P e'.
Proof.
  revert e c i. induction fuel as [| fuel IH]; intros e c i He Hloop;
    cbn [command_loop] in Hloop;
    destruct (c && (i <? length (commands script))%nat);
    try discriminate; try (injection Hloop as <-; exact He).
  destruct (step script options e i) as [[[c1 i1] e1]| |] eqn:Hstep;
    unfold_result; try discriminate.
  destruct (step_executes _ _ _ _ _ _ _ Hstep) as (cmd & Hcmd & Hexec & _).
  apply (IH e1 c1 i1); [| exact Hloop].
  eapply execute_keeps; eauto.
  apply list_elem_of_In. eapply list_elem_of_lookup_2; eauto.
Qed.
End Invariants.

Section TableInvariants.
Context `{HostRegex}.
Variables (script : SedScript) (options : SedOptions).

(** A property of the label table that every command of the script
    keeps. *)
Variable T : gmap string nat -> Prop.
Hypothesis execute_keeps_table :
  forall (e e' : Env) (cmd : SedCommand) (c : bool),
    T (labels e) -> In cmd (commands script) ->
    execute_command e cmd options = Ok (c, e') -> T (labels e').

Lemma cycle_keeps_table (fuel : nat) (r r' : Run) (record : string) :
  T (labels (env r)) -> cycle fuel script options r record = Ok r' ->
  T (labels (env r')).
Proof.
  unfold cycle. intros Hr Hc.
  destruct (command_loop fuel script options
              (with_ps (env r) (begin_cycle (ps (env r)) record)) true 0)
    as [e1| |] eqn:Hloop; unfold_result; try discriminate.
  assert (T (labels e1)) as He1.
  { apply (command_loop_keeps script options (fun e => T (labels e))
             execute_keeps_table fuel
             (with_ps (env r) (begin_cycle (ps (env r)) record)) e1 true
             0%nat); assumption. }
  injection Hc as <-.
  destruct (unbuffered options), (quiet options); exact He1.
Qed.

Lemma cycles_keep_table (fuel : nat) (recs : list string) (r r' : Run) :
  T (labels (env r)) -> cycles fuel script options r recs = Ok r' ->
  T (labels (env r')).
Proof.
  revert r. induction recs as [| record recs IH]; simpl; intros r Hr Hc.
  - injection Hc as <-. exact Hr.
  - destruct (cycle fuel script options r record) as [r1| |] eqn:Hcycle;
      unfold_result; try discriminate.
    eapply IH; [| exact Hc]. eapply cycle_keeps_table; eauto.
Qed.

Lemma process_streams_keep_table (fuel : nat) (streams : list string)
    (r r' : Run) :
  T (labels (env r)) ->
  process_streams fuel script options r streams = Ok r' ->
  T (labels (env r')).
Proof.
  revert r. induction streams as [| stream streams IH]; simpl; intros r Hr Hp.
  - injection Hp as <-. exact Hr.
  - unfold process_stream in Hp.
    match type of Hp with
    | context [cycles _ _ _ ?r0 ?recs] =>
        destruct (cycles fuel script options r0 recs) as [r1| |] eqn:Hcs
    end; unfold_result; try discriminate.
    eapply IH; [| exact Hp].
    apply cycles_keep_table in Hcs; [| exact Hr].
    destruct (separate options); exact Hcs.
Qed.
End TableInvariants.

(** X10: Throughout a run the label table holds nothing but the index 0, under
    names of label commands of the script: whatever the position of a
    label command, the table sends its name to the first command. *)
Theorem X10_label_table_holds_zero_only `{HostRegex} (fuel : nat)
    (streams : list string) (script : SedScript) (options : SedOptions)
    (r : Run) :
  process_streams fuel script options Run_init streams = Ok r ->
  zero_table script (labels (env r)).
Proof.
  apply (process_streams_keep_table script options (zero_table script)).
  - intros e e' cmd c He Hin Hexec.
    destruct (decide (cmd_type cmd = LABEL)) as [Hl | Hl].
    + unfold execute_command in Hexec.
      destruct (matches_command (ps e) cmd
                  {| extended := extended_regex options |}) as [[]| |];
        unfold_result; simpl in Hexec; try discriminate.
      * rewrite Hl in Hexec. injection Hexec as _ <-. simpl.
        intros k v Hk.
        destruct (decide (default "" (arg_label (args cmd)) = k)) as [<- | Hne].
        -- rewrite lookup_insert_eq in Hk. injection Hk as <-.
           split; [reflexivity |]. exists cmd. auto.
        -- rewrite lookup_insert_ne in Hk by exact Hne. auto.
      * injection Hexec as _ <-. exact He.
    + rewrite (execute_command_labels e e' cmd options c Hexec Hl). exact He.
  - intros k v Hk. simpl in Hk. rewrite lookup_empty in Hk. discriminate.
Qed.

Lemma X10_label_table_holds_zero_only_witness :
  exists r : Run,
    process_streams 3 {| commands := [print_cmd; label_cmd "x"] |}
      SedOptions_init Run_init ["a"] = Ok r /\
    labels (env r) !! "x" = Some 0%nat /\
    zero_table {| commands := [print_cmd; label_cmd "x"] |} (labels (env r)).
Proof.
  eexists. split; [reflexivity |]. split; [reflexivity |].
  apply (X10_label_table_holds_zero_only 3 ["a"]
           {| commands := [print_cmd; label_cmd "x"] |} SedOptions_init).
  reflexivity.
Defined.

(** ** Termination of the command loop *)

Lemma parse_address_answers `{HostRegex} (addr : option address)
    (line : Z) (text : string) (m : RegexMatcher) (last : Z) :
  regex_answers -> parse_address addr line text m last <> OutOfFuel.
Proof.
  intros [Hc _] Hp.
  unfold parse_address, RegexMatcher_match, RegexMatcher_compile, PyStr.int
    in Hp.
  unfold_result.
  repeat case_match; simplify_eq; try done; eapply Hc; eauto.
Qed.

Lemma execute_command_answers `{HostRegex} (e : Env) (cmd : SedCommand)
    (options : SedOptions) :
  regex_answers -> execute_command e cmd options <> OutOfFuel.
Proof.
  intros Hre Hexec. pose proof Hre as [Hc Hs].
  unfold execute_command, matches_command in Hexec.
  destruct (parse_address (addr1 cmd) (line_num (ps e))
              (pattern_space (ps e)) {| extended := extended_regex options |}
              (last_line_num (ps e))) as [r1| |] eqn:H1;
    [| discriminate | now apply parse_address_answers in H1].
  destruct (parse_address (addr2 cmd) (line_num (ps e))
              (pattern_space (ps e)) {| extended := extended_regex options |}
              (last_line_num (ps e))) as [r2| |] eqn:H2;
    [| discriminate | now apply parse_address_answers in H2].
  unfold subscript, RegexMatcher_compile in Hexec. unfold_result.
  repeat case_match; simplify_eq; try done;
    solve [eapply Hc; eauto | eapply Hs; eauto].
Qed.

Section BranchFree.
Context `{HostRegex}.
Variables (script : SedScript) (options : SedOptions).
Hypothesis regex_ok : regex_answers.
Hypothesis no_branch :
  forall cmd : SedCommand, In cmd (commands script) -> cmd_type cmd <> BRANCH.

(** Without branch commands the program counter grows by one at each
    turn, so the loop is over after at most as many turns as there are
    commands left. *)
Lemma command_loop_branch_free (fuel : nat) (e : Env) (c : bool) (i : nat) :
  (length (commands script) <= fuel + i)%nat ->
  command_loop fuel script options e c i <> OutOfFuel.
Proof.
  revert e c i. induction fuel as [| fuel IH]; intros e c i Hlen;
    cbn [command_loop];
    destruct (Nat.ltb_spec i (length (commands script))) as [Hi | Hi];
    rewrite ?andb_false_r; try discriminate; try lia.
  destruct c; [| discriminate]. cbn [andb].
  destruct (step script options e i) as [[[c1 i1] e1]| |] eqn:Hstep;
    unfold_result; [| discriminate |].
  - destruct (step_executes _ _ _ _ _ _ _ Hstep) as (cmd & Hcmd & _ & Hnext).
    rewrite Hnext.
    + apply IH. lia.
    + apply no_branch, list_elem_of_In.
      eapply list_elem_of_lookup_2; eauto.
  - exfalso. unfold step in Hstep.
    destruct (commands script !! i) as [cmd|] eqn:Hcmd.
    + destruct (execute_command e cmd options) as [[c0 e0]| |] eqn:Hexec;
        unfold_result; try discriminate.
      * repeat case_match; discriminate.
      * eapply execute_command_answers; eauto.
    + apply lookup_ge_None in Hcmd. lia.
Qed.

Lemma cycles_branch_free (fuel : nat) (recs : list string) (r : Run) :
  (length (commands script) <= fuel)%nat ->
  cycles fuel script options r recs <> OutOfFuel.
Proof.
  intros Hlen. revert r. induction recs as [| record recs IH]; intros r;
    simpl; [discriminate |].
  unfold cycle.
  match goal with
  | |- context [command_loop fuel script options ?e0 true 0] =>
      pose proof (command_loop_branch_free fuel e0 true 0) as Hloop;
      destruct (command_loop fuel script options e0 true 0) as [e1| |]
  end; unfold_result;
    [apply IH | discriminate | intros _; apply Hloop; [lia | reflexivity]].
Qed.

Lemma process_streams_branch_free (fuel : nat) (streams : list string)
    (r : Run) :
  (length (commands script) <= fuel)%nat ->
  process_streams fuel script options r streams <> OutOfFuel.
Proof.
  intros Hlen. revert r. induction streams as [| stream streams IH];
    intros r; simpl; [discriminate |].
  unfold process_stream.
  match goal with
  | |- context [cycles fuel script options ?r0 ?recs] =>
      pose proof (cycles_branch_free fuel recs r0 Hlen) as Hcs;
      destruct (cycles fuel script options r0 recs) as [r1| |]
  end; unfold_result; [apply IH | discriminate | contradiction].
Qed.
End BranchFree.

(** X11: A run of a script without branch commands comes to an end, by
    finishing or by raising: in each cycle the command loop takes at most
    as many turns as the script has commands. *)
Theorem X11_branch_free_run_ends `{HostRegex} (fuel : nat)
    (streams : list string) (script : SedScript) (options : SedOptions) :
  regex_answers ->
  (forall cmd : SedCommand,
     In cmd (commands script) -> cmd_type cmd <> BRANCH) ->
  (length (commands script) <= fuel)%nat ->
  PySedCore_process fuel streams script options <> OutOfFuel.
Proof.
  intros Hre Hnb Hlen. unfold PySedCore_process.
  pose proof (process_streams_branch_free script options Hre Hnb fuel
                streams Run_init Hlen) as Hp.
  destruct (process_streams fuel script options Run_init streams);
    unfold_result; [discriminate | discriminate | contradiction].
Qed.

Lemma literal_regex_answers : @regex_answers literal_regex.
Proof. split; intros; discriminate. Qed.

Lemma X11_branch_free_run_ends_witness :
  PySedCore_process 2 ["a"]
    {| commands := [test_cmd; substitute_cmd "a" "b" ""] |} SedOptions_init
  <> OutOfFuel.
Proof.
  apply (X11_branch_free_run_ends 2 ["a"]
           {| commands := [test_cmd; substitute_cmd "a" "b" ""] |}
           SedOptions_init literal_regex_answers).
  - simpl. intros cmd [<- | [<- | []]]; discriminate.
  - simpl. lia.
Defined.

(** ** Branches that do not apply *)

(** X12: A branch command jumps even on a line its address does not select:
    [execute_command] returns "continue" without looking at the label and
    the loop then moves the program counter to the label's entry. After a
    label command without addresses that declares the branch's label, the
    two commands are run again and again: the command loop of such a line
    has no end, whatever number of turns it is given. *)
Theorem X12_unapplied_branch_jumps_forever `{HostRegex} (fuel : nat)
    (options : SedOptions) (e : Env) (name : string) (b : SedCommand) :
  cmd_type b = BRANCH ->
  branch_target b = name ->
  matches_command (ps e) b {| extended := extended_regex options |}
    = Ok false ->
  step {| commands := [label_cmd name; b] |} options
    (with_labels e (<[name := 0%nat]> (labels e))) 1
  = Ok (true, 0%nat, with_labels e (<[name := 0%nat]> (labels e))) /\
  command_loop fuel {| commands := [label_cmd name; b] |} options e true 0
  = OutOfFuel.
Proof.
  intros Hkind Htarget Hm.
  set (script := {| commands := [label_cmd name; b] |}).
  assert (forall e1 : Env,
            ps e1 = ps e -> labels e1 !! name = Some 0%nat ->
            step script options e1 1 = Ok (true, 0%nat, e1)) as Hjump.
  { intros e1 Hps Hl. unfold step, execute_command. cbn [script commands].
    change ([label_cmd name; b] !! 1%nat) with (Some b).
    cbv iota beta. rewrite Hps, Hm. unfold_result. cbn [negb].
    destruct (decide (cmd_type b = BRANCH)); [| contradiction].
    unfold branch_target in Htarget. rewrite Htarget, Hl. reflexivity. }
  assert (forall e1 : Env,
            step script options e1 0
            = Ok (true, 1%nat,
                  with_labels e1 (<[name := 0%nat]> (labels e1)))) as Hlabel.
  { intros e1. reflexivity. }
  split.
  { apply Hjump; [reflexivity | apply lookup_insert_eq]. }
  assert ((forall e1 : Env, ps e1 = ps e ->
             command_loop fuel script options e1 true 0 = OutOfFuel) /\
          (forall e1 : Env, ps e1 = ps e -> labels e1 !! name = Some 0%nat ->
             command_loop fuel script options e1 true 1 = OutOfFuel))
    as [Hzero _]; [| apply Hzero; reflexivity].
  induction fuel as [| fuel [IH0 IH1]]; [split; reflexivity |].
  split.
  - intros e1 Hps. cbn [command_loop]. cbn [script commands length andb].
    change ((0 <? 2)%nat) with true. cbv iota.
    fold script. rewrite Hlabel. unfold_result.
    apply IH1; [exact Hps | apply lookup_insert_eq].
  - intros e1 Hps Hl. cbn [command_loop]. cbn [script commands length andb].
    change ((1 <? 2)%nat) with true. cbv iota.
    fold script. rewrite (Hjump e1 Hps Hl). unfold_result.
    apply IH0, Hps.
Qed.

Lemma X12_unapplied_branch_jumps_forever_witness :
  let b := {| addr1 := Some (AddrStr "5"); addr2 := None;
              cmd_type := BRANCH; args := no_args |} in
  let e := {| ps := at_line 1 "a"; labels := ∅; output := [] |} in
  PySedCore_parse_script (":0" ++ String PyStr.LF "5,b")
    = Ok {| commands := [label_cmd "0"; b] |} /\
  (step {| commands := [label_cmd "0"; b] |} SedOptions_init
     (with_labels e (<["0" := 0%nat]> (labels e))) 1
   = Ok (true, 0%nat, with_labels e (<["0" := 0%nat]> (labels e))) /\
   command_loop 1000 {| commands := [label_cmd "0"; b] |} SedOptions_init e
     true 0
   = OutOfFuel).
Proof.
  intros b e. split; [reflexivity |].
  apply (X12_unapplied_branch_jumps_forever 1000 SedOptions_init e "0" b);
    reflexivity.
Defined.

(** ** Hold and exchange *)

(** X13: [h] followed by [x] leaves the pattern space as it was, with a copy
    of it in the hold space; [x] followed by [x] leaves the whole state as
    it was. The commands are taken without addresses. *)
Theorem X13_hold_then_exchange `{HostRegex} (e : Env) (h x : SedCommand)
    (options : SedOptions) :
  cmd_type h = HOLD -> cmd_type x = EXCHANGE ->
  addr1 h = None -> addr2 h = None -> addr1 x = None -> addr2 x = None ->
  execute_both e h x options
  = Ok (true, with_ps e (set_hold_space (ps e) (pattern_space (ps e)))) /\
  execute_both e x x options = Ok (true, e).
Proof.
  intros Hh Hx Hh1 Hh2 Hx1 Hx2.
  assert (forall e1 : Env,
            execute_command e1 x options
            = Ok (true,
                  with_ps e1
                    (set_hold_space
                       (set_pattern_space (ps e1) (hold_space (ps e1)))
                       (pattern_space (ps e1))))) as Hexchange.
  { intros e1. unfold execute_command.
    rewrite matches_command_no_address by assumption. now rewrite Hx. }
  assert (execute_command e h options
          = Ok (true,
                with_ps e (set_hold_space (ps e) (pattern_space (ps e)))))
    as Hhold.
  { unfold execute_command.
    rewrite matches_command_no_address by assumption. now rewrite Hh. }
  unfold execute_both. rewrite Hhold, !Hexchange.
  destruct e as [[pattern hold flag n last] table out]. split; reflexivity.
Qed.

Lemma X13_hold_then_exchange_witness :
  let h := {| addr1 := None; addr2 := None; cmd_type := HOLD;
              args := no_args |} in
  let x := {| addr1 := None; addr2 := None; cmd_type := EXCHANGE;
              args := no_args |} in
  let e := {| ps := set_hold_space (at_line 3 "now") "before";
              labels := ∅; output := [] |} in
  execute_both e h x SedOptions_init
  = Ok (true, with_ps e (set_hold_space (ps e) "now")) /\
  execute_both e x x SedOptions_init = Ok (true, e).
Proof.
  intros h x e.
  apply (X13_hold_then_exchange e h x SedOptions_init); reflexivity.
Defined.

(** ** Runs that copy their input *)

Lemma copied_lines (options : SedOptions) (streams : list string)
    (p : SedPatternSpace) :
  quiet options = false ->
  streams_lines options (fun _ => []) p streams = copied options streams.
Proof.
  intros Hq. revert p.
  induction streams as [| stream streams IH]; intros p; [reflexivity |].
  cbn [streams_lines]. unfold copied in *. cbn [flat_map]. rewrite IH.
  f_equal. generalize (begin_stream p). generalize (records options stream).
  intros recs. induction recs as [| record recs IHr]; intros q;
    [reflexivity |].
  cbn [cycles_lines map]. unfold cycle_lines. rewrite Hq, IHr. reflexivity.
Qed.

Lemma env_eta (e : Env) :
  {| ps := ps e; labels := labels e; output := output e ++ [] |} = e.
Proof. destruct e. simpl. now rewrite app_nil_r. Qed.

(** X14: [q] and [n] only end the cycle of the current line: the run is not
    ended and no line is read. Under a script whose first command is a
    [q] or an [n] without addresses, every line of every stream is printed
    as it was read, whatever commands follow. *)
Theorem X14_quit_ends_the_cycle_only `{HostRegex} (fuel : nat)
    (streams : list string) (first : SedCommand) (rest : list SedCommand)
    (options : SedOptions) :
  cmd_type first = QUIT \/ cmd_type first = NEXT ->
  addr1 first = None -> addr2 first = None ->
  quiet options = false ->
  PySedCore_process (S fuel) streams {| commands := first :: rest |} options
  = Ok (copied options streams).
Proof.
  intros Hkind H1 H2 Hq.
  rewrite (process_printing_script (S fuel) _ options (fun _ => [])).
  - now rewrite copied_lines.
  - intros e. rewrite env_eta. cbn [command_loop commands length andb].
    change ((0 <? S (length rest))%nat) with true. cbv iota.
    assert (step {| commands := first :: rest |} options e 0
            = Ok (false, 1%nat, e)) as ->.
    { unfold step, execute_command. cbn [commands].
      change ((first :: rest) !! 0%nat) with (Some first). cbv iota beta.
      rewrite matches_command_no_address by assumption.
      unfold_result. cbn [negb].
      destruct Hkind as [Hk | Hk]; rewrite Hk; reflexivity. }
    unfold_result. destruct fuel; reflexivity.
Qed.

Lemma X14_quit_ends_the_cycle_only_witness :
  PySedCore_process 1 ["one" ++ String PyStr.LF "two"; "three"]
    {| commands :=
         [{| addr1 := None; addr2 := None; cmd_type := QUIT;
             args := no_args |}; print_cmd] |}
    SedOptions_init
  = Ok ["one" ++ String PyStr.LF ""; "two" ++ String PyStr.LF "";
        "three" ++ String PyStr.LF ""].
Proof.
  apply (X14_quit_ends_the_cycle_only 0
           ["one" ++ String PyStr.LF "two"; "three"]
           {| addr1 := None; addr2 := None; cmd_type := QUIT;
              args := no_args |} [print_cmd] SedOptions_init);
    [left; reflexivity | reflexivity | reflexivity | reflexivity].
Defined.

Section InertScripts.
Context `{HostRegex}.
Variables (script : SedScript) (options : SedOptions).
Hypothesis all_inert : forall cmd : SedCommand,
  In cmd (commands script) ->
  inert (cmd_type cmd) = true /\ addr1 cmd = None /\ addr2 cmd = None.

Lemma command_loop_inert (fuel : nat) (e : Env) (i : nat) :
  (length (commands script) <= fuel + i)%nat ->
  command_loop fuel script options e true i = Ok e.
Proof.
  revert i. induction fuel as [| fuel IH]; intros i Hlen;
    cbn [command_loop andb];
    destruct (Nat.ltb_spec i (length (commands script))) as [Hi | Hi];
    try reflexivity; try lia.
  destruct (lookup_lt_is_Some_2 (commands script) i Hi) as [cmd Hcmd].
  destruct (all_inert cmd) as (Hk & H1 & H2).
  { apply list_elem_of_In. eapply list_elem_of_lookup_2; eauto. }
  assert (step script options e i = Ok (true, S i, e)) as ->.
  { unfold step, execute_command. rewrite Hcmd.
    rewrite matches_command_no_address by assumption.
    unfold_result. cbn [negb].
    destruct (cmd_type cmd); try discriminate Hk; reflexivity. }
  unfold_result. apply IH. lia.
Qed.
End InertScripts.

(** X15: A script made only of comments, blank lines and commands of the kinds
    [execute_command] has no branch for, all without addresses, copies
    its input: every line of every stream is printed as it was read. *)
Theorem X15_inert_script_copies_input `{HostRegex} (fuel : nat)
    (streams : list string) (script : SedScript) (options : SedOptions) :
  (forall cmd : SedCommand,
     In cmd (commands script) ->
     inert (cmd_type cmd) = true /\ addr1 cmd = None /\ addr2 cmd = None) ->
  (length (commands script) <= fuel)%nat ->
  quiet options = false ->
  PySedCore_process fuel streams script options = Ok (copied options streams).
Proof.
  intros Hinert Hlen Hq.
  rewrite (process_printing_script fuel script options (fun _ => [])).
  - now rewrite copied_lines.
  - intros e. rewrite env_eta.
    apply command_loop_inert; [exact Hinert | lia].
Qed.

Lemma X15_inert_script_copies_input_witness :
  PySedCore_parse_script
    ("# copy" ++ String PyStr.LF (String PyStr.LF "y/ab/ba/"))
  = Ok {| commands :=
            [{| addr1 := None; addr2 := None; cmd_type := COMMENT;
                args := no_args |};
             {| addr1 := None; addr2 := None; cmd_type := COMMENT;
                args := no_args |};
             transliterate_cmd] |} /\
  PySedCore_process 3 ["ab" ++ String PyStr.LF "ba"]
    {| commands :=
         [{| addr1 := None; addr2 := None; cmd_type := COMMENT;
             args := no_args |};
          {| addr1 := None; addr2 := None; cmd_type := COMMENT;
             args := no_args |};
          transliterate_cmd] |}
    SedOptions_init
  = Ok ["ab" ++ String PyStr.LF ""; "ba" ++ String PyStr.LF ""].
Proof.
  split; [reflexivity |].
  apply (X15_inert_script_copies_input 3 ["ab" ++ String PyStr.LF "ba"] _
           SedOptions_init); [| simpl; lia | reflexivity].
  simpl. intros cmd [<- | [<- | [<- | []]]]; repeat split.
Defined.

(** ** One printed line for each line read *)

Lemma execute_command_output `{HostRegex} (e e' : Env) (cmd : SedCommand)
    (options : SedOptions) (c : bool) :
  execute_command e cmd options = Ok (c, e') ->
  prints (cmd_type cmd) = false -> output e' = output e.
Proof. intros Hexec Hkind. execute_cases Hexec. Qed.

Section SilentScripts.
Context `{HostRegex}.
Variables (script : SedScript) (options : SedOptions).
Hypothesis no_print : forall cmd : SedCommand,
  In cmd (commands script) -> prints (cmd_type cmd) = false.

Lemma cycle_prints_one (fuel : nat) (r r' : Run) (record : string) :
  cycle fuel script options r record = Ok r' ->
  length (emitted r') = (length (emitted r) + printed_per_record options)%nat.
Proof.
  unfold cycle. intros Hc.
  destruct (command_loop fuel script options
              (with_ps (env r) (begin_cycle (ps (env r)) record)) true 0)
    as [e1| |] eqn:Hloop; unfold_result; try discriminate.
  assert (output e1 = output (env r)) as Hout.
  { apply (command_loop_keeps script options
             (fun e => output e = output (env r))) in Hloop;
      [exact Hloop | | reflexivity].
    intros e e' cmd c He Hin Hexec.
    rewrite (execute_command_output e e' cmd options c Hexec); auto. }
  injection Hc as <-. unfold printed_per_record.
  destruct (unbuffered options), (quiet options);
    rewrite ?emitted_flush; unfold emitted; simpl; rewrite Hout;
    rewrite ?length_app; simpl; lia.
Qed.

Lemma cycles_print_one_each (fuel : nat) (recs : list string) (r r' : Run) :
  cycles fuel script options r recs = Ok r' ->
  length (emitted r')
  = (length (emitted r) + length recs * printed_per_record options)%nat.
Proof.
  revert r. induction recs as [| record recs IH]; simpl; intros r Hc.
  - injection Hc as <-. lia.
  - destruct (cycle fuel script options r record) as [r1| |] eqn:Hcycle;
      unfold_result; try discriminate.
    rewrite (IH r1 Hc), (cycle_prints_one fuel r r1 record Hcycle). lia.
Qed.

Lemma process_streams_print_one_each (fuel : nat) (streams : list string)
    (r r' : Run) :
  process_streams fuel script options r streams = Ok r' ->
  length (emitted r')
  = (length (emitted r)
     + length (flat_map (records options) streams)
       * printed_per_record options)%nat.
Proof.
  revert r. induction streams as [| stream streams IH]; simpl; intros r Hp.
  - injection Hp as <-. lia.
  - unfold process_stream in Hp.
    match type of Hp with
    | context [cycles _ _ _ ?r0 ?recs] =>
        destruct (cycles fuel script options r0 recs) as [r1| |] eqn:Hcs
    end; unfold_result; try discriminate.
    apply cycles_print_one_each in Hcs.
    apply IH in Hp. rewrite Hp, length_app.
    destruct (separate options); rewrite ?emitted_flush, Hcs;
      unfold emitted; simpl; lia.
Qed.
End SilentScripts.

(** X16: No command holds back the line printed at the end of a cycle. A run
    that finishes under a script without [p], [=] and [i] commands has
    yielded exactly one line for each line read, and none at all with the
    quiet option; deleting a line does not lower the count. *)
Theorem X16_one_line_out_per_line_in `{HostRegex} (fuel : nat)
    (streams : list string) (script : SedScript) (options : SedOptions)
    (out : list string) :
  (forall cmd : SedCommand,
     In cmd (commands script) -> prints (cmd_type cmd) = false) ->
  PySedCore_process fuel streams script options = Ok out ->
  length out
  = if quiet options then 0%nat
    else length (flat_map (records options) streams).
Proof.
  intros Hsilent Hrun. unfold PySedCore_process in Hrun.
  destruct (process_streams fuel script options Run_init streams)
    as [r| |] eqn:Hp; unfold_result; try discriminate.
  injection Hrun as <-.
  change (length (emitted r)
          = if quiet options then 0%nat
            else length (flat_map (records options) streams)).
  rewrite (process_streams_print_one_each script options Hsilent fuel
             streams Run_init r Hp).
  unfold printed_per_record. simpl. destruct (quiet options); lia.
Qed.

Lemma X16_one_line_out_per_line_in_witness :
  length ["1" ++ String PyStr.LF ""; String PyStr.LF "";
          "3" ++ String PyStr.LF ""; "4" ++ String PyStr.LF "";
          "5" ++ String PyStr.LF ""]
  = length (flat_map (records SedOptions_init) [five_lines]).
Proof.
  apply (X16_one_line_out_per_line_in 1 [five_lines]
           {| commands := [delete_2_4] |} SedOptions_init).
  - simpl. intros cmd [<- | []]. reflexivity.
  - reflexivity.
Defined.

(** ** Options that do not change the lines *)

Lemma execute_command_options `{HostRegex} (e : Env) (cmd : SedCommand)
    (o1 o2 : SedOptions) :
  extended_regex o1 = extended_regex o2 ->
  execute_command e cmd o1 = execute_command e cmd o2.
Proof. intros Hext. unfold execute_command. now rewrite Hext. Qed.

Lemma command_loop_options `{HostRegex} (fuel : nat) (script : SedScript)
    (o1 o2 : SedOptions) (e : Env) (c : bool) (i : nat) :
  extended_regex o1 = extended_regex o2 ->
  command_loop fuel script o1 e c i = command_loop fuel script o2 e c i.
Proof.
  intros Hext. revert e c i. induction fuel as [| fuel IH]; intros e c i;
    [reflexivity |].
  cbn [command_loop]. unfold step.
  destruct (commands script !! i) as [cmd|]; [| reflexivity].
  rewrite (execute_command_options e cmd o1 o2 Hext).
  destruct (c && (i <? length (commands script))%nat); [| reflexivity].
  destruct (execute_command e cmd o2) as [[c0 e0]| |]; unfold_result;
    try reflexivity.
  repeat case_match; auto.
Qed.

(** [execute_command] never reads the output buffer: it only appends to
    it. *)
Lemma execute_command_appends `{HostRegex} (e1 e2 e1' : Env)
    (cmd : SedCommand) (options : SedOptions) (c : bool) :
  same_but_output e1 e2 ->
  execute_command e1 cmd options = Ok (c, e1') ->
  exists (e2' : Env) (d : list string),
    execute_command e2 cmd options = Ok (c, e2') /\
    same_but_output e1' e2' /\
    output e1' = (output e1 ++ d)%list /\
    output e2' = (output e2 ++ d)%list.
Proof.
  intros [Hps Hl] Hexec.
  destruct e1 as [p l out1], e2 as [p2 l2 out2]. simpl in Hps, Hl. subst.
  unfold execute_command, subscript, RegexMatcher_compile in *.
  unfold same_but_output. unfold_result. cbn [ps labels output] in *.
  destruct (matches_command p2 cmd {| extended := extended_regex options |})
    as [[]| |]; cbn [negb] in *; try discriminate;
    repeat (case_match; simplify_eq/=; try done); simplify_eq/=;
    eexists _, _; (split; [reflexivity |]); (split; [done |]);
    first [ split; reflexivity
          | split; symmetry; apply app_nil_r ].
Qed.

Lemma command_loop_appends `{HostRegex} (fuel : nat) (script : SedScript)
    (options : SedOptions) (e1 e2 e1' : Env) (c : bool) (i : nat) :
  same_but_output e1 e2 ->
  command_loop fuel script options e1 c i = Ok e1' ->
  exists (e2' : Env) (d : list string),
    command_loop fuel script options e2 c i = Ok e2' /\
    same_but_output e1' e2' /\
    output e1' = (output e1 ++ d)%list /\
    output e2' = (output e2 ++ d)%list.
Proof.
  revert e1 e2 c i. induction fuel as [| fuel IH]; intros e1 e2 c i Hsame Hloop;
    cbn [command_loop] in *;
    destruct (c && (i <? length (commands script))%nat);
    try discriminate;
    try (injection Hloop as <-; exists e2, [];
         rewrite !app_nil_r; auto).
  destruct (step script options e1 i) as [[[c1 i1] e1a]| |] eqn:Hstep;
    unfold_result; try discriminate.
  unfold step in *.
  destruct (commands script !! i) as [cmd|]; [| discriminate].
  destruct (execute_command e1 cmd options) as [[c0 e0]| |] eqn:Hexec;
    unfold_result; try discriminate.
  destruct (execute_command_appends e1 e2 e0 cmd options c0 Hsame Hexec)
    as (e2a & d1 & -> & Hsame1 & Hout1 & Hout2).
  unfold_result.
  assert (exists e2b : Env,
            (if decide (cmd_type cmd = BRANCH)
             then match labels e2a !! default "0" (arg_label (args cmd)) with
                  | Some target => Ok (c0, target, e2a)
                  | None => Ok (c0, S i, e2a)
                  end
             else Ok (c0, S i, e2a)) = Ok (c1, i1, e2b) /\
            same_but_output e1a e2b /\
            output e1a = output e0 /\ output e2b = output e2a)
    as (e2b & -> & Hsame2 & Ha & Hb).
  { destruct Hsame1 as [Hps1 Hl1]. rewrite <- Hl1.
    repeat case_match; simplify_eq; eexists; repeat split; eauto. }
  destruct (IH e1a e2b c1 i1 Hsame2 Hloop) as (e2' & d2 & -> & Hs & Ho1 & Ho2).
  exists e2', (d1 ++ d2)%list. repeat split; try apply Hs.
  - rewrite Ho1, Ha, Hout1, app_assoc. reflexivity.
  - rewrite Ho2, Hb, Hout2, app_assoc. reflexivity.
Qed.

Section SameLines.
Context `{HostRegex}.
Variables (fuel : nat) (script : SedScript) (o1 o2 : SedOptions).
Hypothesis same_options : same_engine_options o1 o2.

Lemma same_lines_flush_l (r1 r2 : Run) (b : bool) :
  same_lines r1 r2 -> same_lines (if b then flush r1 else r1) r2.
Proof.
  destruct b; [| auto]. intros [Hs He]. split; [exact Hs |].
  now rewrite emitted_flush.
Qed.

Lemma same_lines_flush_r (r1 r2 : Run) (b : bool) :
  same_lines r1 r2 -> same_lines r1 (if b then flush r2 else r2).
Proof.
  destruct b; [| auto]. intros [Hs He]. split; [exact Hs |].
  now rewrite emitted_flush.
Qed.

Lemma cycle_same_lines (r1 r2 r1' : Run) (record : string) :
  same_lines r1 r2 ->
  cycle fuel script o1 r1 record = Ok r1' ->
  exists r2' : Run,
    cycle fuel script o2 r2 record = Ok r2' /\ same_lines r1' r2'.
Proof.
  destruct same_options as (Hq & Hext & _).
  intros [[Hps Hl] Hem] Hc. unfold cycle in *.
  destruct (command_loop fuel script o1
              (with_ps (env r1) (begin_cycle (ps (env r1)) record)) true 0)
    as [e1| |] eqn:Hloop; unfold_result; try discriminate.
  rewrite (command_loop_options fuel script o1 o2 _ _ _ Hext) in Hloop.
  destruct (command_loop_appends fuel script o2
              (with_ps (env r1) (begin_cycle (ps (env r1)) record))
              (with_ps (env r2) (begin_cycle (ps (env r2)) record))
              e1 true 0%nat) as (e2 & d & -> & [Hps' Hl'] & Hout1 & Hout2);
    [split; simpl; congruence | exact Hloop |].
  injection Hc as <-. eexists. split; [reflexivity |].
  apply same_lines_flush_l, same_lines_flush_r.
  unfold emitted in Hem. rewrite <- Hq.
  split.
  - destruct (quiet o1); split; simpl; congruence.
  - unfold emitted. cbn [env yielded].
    destruct (quiet o1); cbn [output_append output];
      rewrite Hout1, Hout2; cbn [with_ps output];
      rewrite ?Hps', !app_assoc, Hem; reflexivity.
Qed.

Lemma cycles_same_lines (recs : list string) (r1 r2 r1' : Run) :
  same_lines r1 r2 ->
  cycles fuel script o1 r1 recs = Ok r1' ->
  exists r2' : Run,
    cycles fuel script o2 r2 recs = Ok r2' /\ same_lines r1' r2'.
Proof.
  revert r1 r2. induction recs as [| record recs IH]; simpl;
    intros r1 r2 Hs Hc.
  - injection Hc as <-. eauto.
  - destruct (cycle fuel script o1 r1 record) as [r1a| |] eqn:Hcycle;
      unfold_result; try discriminate.
    destruct (cycle_same_lines r1 r2 r1a record Hs Hcycle)
      as (r2a & -> & Hsa).
    unfold_result. eauto.
Qed.

Lemma process_streams_same_lines (streams : list string)
    (r1 r2 r1' : Run) :
  same_lines r1 r2 ->
  process_streams fuel script o1 r1 streams = Ok r1' ->
  exists r2' : Run,
    process_streams fuel script o2 r2 streams = Ok r2' /\ same_lines r1' r2'.
Proof.
  destruct same_options as (_ & _ & Hnull).
  revert r1 r2. induction streams as [| stream streams IH]; simpl;
    intros r1 r2 Hs Hp.
  - injection Hp as <-. eauto.
  - unfold process_stream in *.
    assert (records o1 stream = records o2 stream) as Hrecs
      by (unfold records; now rewrite Hnull).
    rewrite Hrecs in Hp.
    match type of Hp with
    | context [cycles _ _ _ ?r0 ?recs] =>
        destruct (cycles fuel script o1 r0 recs) as [r1a| |] eqn:Hcs
    end; unfold_result; try discriminate.
    destruct (cycles_same_lines (records o2 stream)
                {| env := with_ps (env r1) (begin_stream (ps (env r1)));
                   yielded := yielded r1 |}
                {| env := with_ps (env r2) (begin_stream (ps (env r2)));
                   yielded := yielded r2 |} r1a)
      as (r2a & -> & Hsa); [| exact Hcs |].
    { destruct Hs as [[Hps Hl] Hem]. unfold emitted in Hem.
      split; [split |]; unfold emitted; simpl; congruence. }
    unfold_result. eapply IH; [| exact Hp].
    apply same_lines_flush_l, same_lines_flush_r, Hsa.
Qed.
End SameLines.

(** X17: The lines of a finished run depend on the options through [quiet],
    [extended_regex] and [null_data] only: [unbuffered] and [separate]
    change when lines are handed over, not which lines, and the other
    options are not read. *)
Theorem X17_buffering_options_keep_the_lines `{HostRegex} (fuel : nat)
    (streams : list string) (script : SedScript) (o1 o2 : SedOptions)
    (out : list string) :
  same_engine_options o1 o2 ->
  PySedCore_process fuel streams script o1 = Ok out ->
  PySedCore_process fuel streams script o2 = Ok out.
Proof.
  intros Hsame Hrun. unfold PySedCore_process in *.
  destruct (process_streams fuel script o1 Run_init streams) as [r1| |]
    eqn:Hp; unfold_result; try discriminate.
  destruct (process_streams_same_lines fuel script o1 o2 Hsame streams
              Run_init Run_init r1) as (r2 & -> & [_ Hem]);
    [repeat split | exact Hp |].
  injection Hrun as <-. unfold_result. f_equal. exact (eq_sym Hem).
Qed.

Lemma X17_buffering_options_keep_the_lines_witness :
  PySedCore_process 1 ["a" ++ String PyStr.LF "b"; "c"]
    {| commands := [print_cmd] |}
    {| quiet := false; extended_regex := false; in_place := Some ".bak";
       unbuffered := true; null_data := false; sandbox := true;
       posix := false; separate := true; line_wrap := 40;
       follow_symlinks := false |}
  = Ok ["a" ++ String PyStr.LF ""; "a" ++ String PyStr.LF "";
        "b" ++ String PyStr.LF ""; "b" ++ String PyStr.LF "";
        "c" ++ String PyStr.LF ""; "c" ++ String PyStr.LF ""].
Proof.
  apply (X17_buffering_options_keep_the_lines 1 _ _ SedOptions_init);
    [repeat split | reflexivity].
Defined.

(** ** The pattern cache *)

(** X18: The cache of a [RegexMatcher] does not change what [compile]
    returns. A new object has a sound cache; on a sound cache [compile]
    returns the pattern [re.compile] returns for the text under the
    object's flags, fails as it fails, and leaves a sound cache and the
    same flags. *)
Theorem X18_pattern_cache_is_transparent `{HostRegex}
    (m : RegexMatcherObject) (pattern : string) :
  cache_sound m ->
  cache_sound (RegexMatcher_new (matcher_extended m)) /\
  result_map fst (RegexMatcher_compile_cached m pattern)
  = RegexMatcher_compile {| extended := matcher_extended m |} pattern /\
  (forall (regex : Pattern) (m' : RegexMatcherObject),
     RegexMatcher_compile_cached m pattern = Ok (regex, m') ->
     cache_sound m' /\ matcher_extended m' = matcher_extended m).
Proof.
  intros Hsound. split; [| split].
  - intros p regex Hp. simpl in Hp. rewrite lookup_empty in Hp.
    discriminate Hp.
  - unfold RegexMatcher_compile_cached, RegexMatcher_compile. simpl.
    destruct (matcher_patterns m !! pattern) as [regex|] eqn:Hhit.
    + simpl. symmetry. apply Hsound, Hhit.
    + destruct (re_compile (matcher_extended m) pattern); reflexivity.
  - unfold RegexMatcher_compile_cached. intros regex m' Hc.
    destruct (matcher_patterns m !! pattern) as [hit|] eqn:Hhit.
    + injection Hc as <- <-. auto.
    + destruct (re_compile (matcher_extended m) pattern) as [r| |] eqn:Hre;
        try discriminate.
      injection Hc as <- <-. split; [| reflexivity].
      intros p regex Hp. simpl in *.
      destruct (decide (pattern = p)) as [<- | Hne].
      * rewrite lookup_insert_eq in Hp. congruence.
      * rewrite lookup_insert_ne in Hp by exact Hne. auto.
Qed.

Lemma X18_pattern_cache_is_transparent_witness :
  let m := {| matcher_extended := false;
              matcher_patterns :=
                {[ "a+" := ("a+" : @Pattern literal_regex) ]} |} in
  cache_sound (RegexMatcher_new (matcher_extended m)) /\
  result_map fst (RegexMatcher_compile_cached m "a+")
  = RegexMatcher_compile {| extended := matcher_extended m |} "a+" /\
  (forall (regex : Pattern) (m' : RegexMatcherObject),
     RegexMatcher_compile_cached m "a+" = Ok (regex, m') ->
     cache_sound m' /\ matcher_extended m' = matcher_extended m).
Proof.
  intros m. apply (X18_pattern_cache_is_transparent m "a+").
  intros p regex Hp. simpl in Hp.
  apply lookup_singleton_Some in Hp as [<- <-]. reflexivity.
Defined.

(** ** Step addresses *)

Lemma split_without (c : ascii) (s : string) :
  PyStr.contains c s = false -> PyStr.split c s = [s].
Proof.
  induction s as [| d s IH]; [reflexivity |].
  cbn [PyStr.contains PyStr.split]. intros Hs.
  apply orb_false_iff in Hs as [-> Hs]. now rewrite (IH Hs).
Qed.

Lemma all_digits_no_tilde (s : string) :
  PyStr.all_digits s = true -> PyStr.contains "~" s = false.
Proof.
  induction s as [| c s IH]; [reflexivity |].
  cbn [PyStr.all_digits PyStr.contains]. intros Hs.
  apply andb_prop in Hs as [Hc Hs]. rewrite (IH Hs), orb_false_r.
  destruct (Ascii.eqb_spec "~" c) as [<- | ]; [discriminate Hc | reflexivity].
Qed.

(** X19: A step address [first~step] is tested by a remainder alone, without
    asking that the line be at or after [first]: it matches a line exactly
    when it matches the line [step] further, so also lines before
    [first]. A step of 0 raises [ZeroDivisionError] on every line. *)
Theorem X19_step_address_has_no_first_line `{HostRegex} (a s1 s2 : string)
    (first step line : Z) (text : string) (m : RegexMatcher) (last : Z) :
  PyStr.startswith "/" a = false ->
  PyStr.split "~" a = [s1; s2] ->
  PyStr.int s1 = Ok first ->
  PyStr.int s2 = Ok step ->
  parse_address (Some (AddrStr a)) line text m last
  = (if step =? 0 then Raise ZeroDivisionError
     else Ok (Some ((line - first) mod step =? 0))) /\
  parse_address (Some (AddrStr a)) (line + step) text m last
  = parse_address (Some (AddrStr a)) line text m last /\
  (step <> 0 ->
   parse_address (Some (AddrStr a)) (first - step) text m last
   = Ok (Some true)).
Proof.
  intros Hslash Hsplit H1 H2.
  assert (PyStr.contains "~" a = true) as Htilde.
  { destruct (PyStr.contains "~" a) eqn:Hc; [reflexivity |].
    rewrite (split_without _ _ Hc) in Hsplit. discriminate Hsplit. }
  assert (String.eqb a "$" = false) as Hdollar.
  { destruct (String.eqb_spec a "$") as [-> |]; [discriminate Htilde | auto]. }
  assert (PyStr.isdigit a = false) as Hdigit.
  { unfold PyStr.isdigit. destruct a; [reflexivity |].
    destruct (PyStr.all_digits (String a a0)) eqn:Hd; [| reflexivity].
    rewrite (all_digits_no_tilde _ Hd) in Htilde. discriminate Htilde. }
  assert (forall n : Z,
            parse_address (Some (AddrStr a)) n text m last
            = (if step =? 0 then Raise ZeroDivisionError
               else Ok (Some ((n - first) mod step =? 0)))) as Hstep.
  { intros n. unfold parse_address.
    rewrite Hdollar, Hslash, Hdigit, Htilde, Hsplit, H1. unfold_result.
    rewrite H2. reflexivity. }
  split; [apply Hstep |]. split.
  - rewrite !Hstep. destruct (Z.eqb_spec step 0) as [| Hne]; [reflexivity |].
    replace (line + step - first) with (line - first + 1 * step) by lia.
    now rewrite Z_mod_plus_full.
  - intros Hne. rewrite Hstep.
    destruct (Z.eqb_spec step 0) as [| _]; [contradiction |].
    replace (first - step - first) with (0 + (-1) * step) by lia.
    rewrite Z_mod_plus_full. reflexivity.
Qed.

Lemma X19_step_address_has_no_first_line_witness :
  parse_address (Some (AddrStr "5~2")) 1 "x" {| extended := false |} 1
  = Ok (Some ((1 - 5) mod 2 =? 0)) /\
  parse_address (Some (AddrStr "5~2")) (1 + 2) "x" {| extended := false |} 1
  = parse_address (Some (AddrStr "5~2")) 1 "x" {| extended := false |} 1 /\
  (2 <> 0 ->
   parse_address (Some (AddrStr "5~2")) (5 - 2) "x" {| extended := false |} 1
   = Ok (Some true)).
Proof.
  apply (X19_step_address_has_no_first_line "5~2" "5" "2" 5 2 1 "x"
           {| extended := false |} 1); reflexivity.
Defined.

(** ** Addresses that raise *)

(** X20: Both addresses of a command are evaluated on every line before
    either is used. An exception raised by address2 is therefore raised
    by [matches_command] and by [execute_command] even on lines where
    address1 alone decides whether the command applies. *)
Theorem X20_second_address_always_evaluated `{HostRegex} (e : Env)
    (cmd : SedCommand) (options : SedOptions) (r1 : option bool) (x : exn) :
  parse_address (addr1 cmd) (line_num (ps e)) (pattern_space (ps e))
    {| extended := extended_regex options |} (last_line_num (ps e)) = Ok r1 ->
  parse_address (addr2 cmd) (line_num (ps e)) (pattern_space (ps e))
    {| extended := extended_regex options |} (last_line_num (ps e))
    = Raise x ->
  matches_command (ps e) cmd {| extended := extended_regex options |}
    = Raise x /\
  execute_command e cmd options = Raise x.
Proof.
  intros H1 H2.
  assert (matches_command (ps e) cmd {| extended := extended_regex options |}
          = Raise x) as Hm.
  { unfold matches_command. rewrite H1, H2. reflexivity. }
  split; [exact Hm |]. unfold execute_command. rewrite Hm. reflexivity.
Qed.

Lemma X20_second_address_always_evaluated_witness :
  let cmd := {| addr1 := Some (AddrStr "1"); addr2 := Some (AddrStr "0~0");
                cmd_type := PRINT; args := no_args |} in
  let e := {| ps := at_line 1 "x"; labels := ∅; output := [] |} in
  matches_command (ps e) cmd {| extended := extended_regex SedOptions_init |}
    = Raise ZeroDivisionError /\
  execute_command e cmd SedOptions_init = Raise ZeroDivisionError.
Proof.
  intros cmd e.
  apply (X20_second_address_always_evaluated e cmd SedOptions_init (Some true));
    reflexivity.
Defined.

(** ** Commas in a script line *)

(** X21: The first comma of a script line always ends the first address,
    wherever it stands: the text before it, stripped, becomes address1
    even when the line is a substitute command with a comma in its
    pattern. A second comma ends address2 in the same way; without one,
    all the text after the first comma is the command. *)
Theorem X21_first_comma_ends_address (before rest : string) :
  PyStr.contains "," before = false ->
  parse_addresses (before ++ String "," rest)
  = Ok (match PyStr.split_once "," rest with
        | Some (second, cmd) =>
            (Some (PyStr.strip before), Some (PyStr.strip second),
             PyStr.strip cmd)
        | None => (Some (PyStr.strip before), None, PyStr.strip rest)
        end).
Proof.
  intros Hb. unfold parse_addresses.
  rewrite (split_once_first "," before rest Hb).
  destruct (PyStr.split_once "," rest) as [[second cmd]|]; reflexivity.
Qed.

Lemma X21_first_comma_ends_address_witness :
  parse_addresses "s/a,b/c/" = Ok (Some "s/a", None, "b/c/") /\
  result_map cmd_type (parse_line "s/a,b/c/") = Ok BRANCH.
Proof.
  split; [| reflexivity].
  apply (X21_first_comma_ends_address "s/a" "b/c/"). reflexivity.
Defined.
